(** * py-img-tool: batch image resizer and converter ([img.py])

    A shallow embedding of [get_unique_filepath], [process_images] and
    [main], the properties of the natural-language specification that
    can be checked against them, and further properties of the code.

    Conventions of the embedding:
    - Python [int] is [Z]; Python [str] is [string] (a string of bytes,
      so the ASCII fragment of the source's Unicode strings is exact);
    - Python [float] is IEEE 754 binary64 as specified by the Standard
      Library's [SpecFloat] (precision 53, maximal exponent 1024);
    - [pathlib.Path] is modelled in its POSIX flavour as a root and a list
      of components;
    - the file system, the image codec (Pillow) and the console are an
      interface, [Platform], over an abstract type of worlds; the
      console is the list of messages printed so far;
    - exceptions are values of [result]; the unbounded [while True] loop
      of [get_unique_filepath] takes fuel, and running out of it is an
      outcome of its own, distinct from an exception;
    - [main] starts from the parsed command line; the standard input is
      the list of the events that [input] meets, and [shlex.split] is
      part of the environment. *)

From Stdlib Require Import ZArith List String Ascii Bool Lia.
From Stdlib Require Import DecimalString DecimalPos DecimalZ.
From Stdlib Require Import Floats.SpecFloat.
Import ListNotations.

Local Open Scope string_scope.
Local Open Scope list_scope.
Local Open Scope Z_scope.

(** ** Python strings *)

Module PyStr.

(** [c in chars] for a one-character string [c]. *)
Definition char_in (c : ascii) (chars : string) : bool :=
  existsb (Ascii.eqb c) (list_ascii_of_string chars).

(** [s.lstrip(chars)] *)
Fixpoint lstrip (chars s : string) : string :=
  match s with
  | EmptyString => EmptyString
  | String c s' => if char_in c chars then lstrip chars s' else s
  end.

(** [s.rstrip(chars)] *)
Fixpoint rstrip (chars s : string) : string :=
  match s with
  | EmptyString => EmptyString
  | String c s' =>
      match rstrip chars s' with
      | EmptyString =>
          if char_in c chars then EmptyString else String c EmptyString
      | r => String c r
      end
  end.

(** [s.strip(chars)]: leading and trailing characters that belong to
    [chars] are removed. *)
Definition strip (chars s : string) : string :=
  rstrip chars (lstrip chars s).

(** [s.lower()] on the ASCII letters. *)
Definition lower_ascii (c : ascii) : ascii :=
  let n := nat_of_ascii c in
  if ((65 <=? n) && (n <=? 90))%nat then ascii_of_nat (n + 32) else c.

Fixpoint lower (s : string) : string :=
  match s with
  | EmptyString => EmptyString
  | String c s' => String (lower_ascii c) (lower s')
  end.

(** [len(s)] *)
Definition len (s : string) : Z := Z.of_nat (String.length s).

(** [len(xs)] for a list *)
Definition len_list {A} (xs : list A) : Z := Z.of_nat (List.length xs).

(** [s.rfind(c)]: the index of the last occurrence of [c], or [-1]. *)
Fixpoint rfind_from (c : ascii) (s : string) (i last : Z) : Z :=
  match s with
  | EmptyString => last
  | String a s' => rfind_from c s' (i + 1) (if Ascii.eqb a c then i else last)
  end.

Definition rfind (c : ascii) (s : string) : Z := rfind_from c s 0 (-1).

(** [s[:n]] and [s[n:]] for [0 <= n]. *)
Fixpoint take (n : nat) (s : string) : string :=
  match n, s with
  | S n', String c s' => String c (take n' s')
  | _, _ => EmptyString
  end.

Fixpoint drop (n : nat) (s : string) : string :=
  match n, s with
  | S n', String _ s' => drop n' s'
  | _, _ => s
  end.

(** [s.split(sep)] for a one-character separator. *)
Fixpoint split (sep : ascii) (s : string) : list string :=
  match s with
  | EmptyString => [EmptyString]
  | String c s' =>
      if Ascii.eqb c sep then EmptyString :: split sep s'
      else match split sep s' with
           | [] => [String c EmptyString]
           | x :: xs => String c x :: xs
           end
  end.

(** [s.isdigit()] on ASCII: non-empty and every character is a digit. *)
Definition is_digit_ascii (c : ascii) : bool :=
  let n := nat_of_ascii c in ((48 <=? n) && (n <=? 57))%nat.

Definition isdigit (s : string) : bool :=
  match s with
  | EmptyString => false
  | _ => forallb is_digit_ascii (list_ascii_of_string s)
  end.

(** [str(n)] / [f"{n}"] for an [int]. *)
Definition of_int (n : Z) : string := NilZero.string_of_int (Z.to_int n).

(** [s.startswith(c)] *)
Definition starts_with (c : ascii) (s : string) : bool :=
  match s with
  | String a _ => Ascii.eqb a c
  | EmptyString => false
  end.

End PyStr.

(** ** pathlib (POSIX flavour) *)

Module Pathlib.

(** A pure path: the root ([""], ["/"] or ["//"]) and the components.
    [suffix] and [stem] are those of Python 3.8 to 3.13. *)
Record Path : Type := mkPath { root : string; parts : list string }.

(** [posixpath.splitroot]: one leading slash, or three and more,
    give the root ["/"]; exactly two give ["//"]. *)
Definition splitroot (p : string) : string * string :=
  match p with
  | String "/" (String "/" (String "/" _ as r)) => ("/", String "/" r)
  | String "/" (String "/" r) => ("//", r)
  | String "/" r => ("/", r)
  | _ => ("", p)
  end.

(** A component is kept when it is neither empty nor ["."]. *)
Definition keep_part (x : string) : bool :=
  negb (String.eqb x "") && negb (String.eqb x ".").

Definition split_parts (rel : string) : list string :=
  filter keep_part (PyStr.split "/" rel).

(** [Path(s)] *)
Definition of_string (s : string) : Path :=
  let '(r, rel) := splitroot s in mkPath r (split_parts rel).

(** [p / key] for a string [key]: an absolute [key] replaces [p]. *)
Definition joinpath (p : Path) (key : string) : Path :=
  if PyStr.starts_with "/" key then of_string key
  else mkPath (root p) (parts p ++ split_parts key).

(** [p.parent]: a path without components is its own parent. *)
Definition parent (p : Path) : Path :=
  match parts p with
  | [] => p
  | _ => mkPath (root p) (removelast (parts p))
  end.

(** [p.name]: the last component, or the empty string. *)
Definition name (p : Path) : string := last (parts p) "".

(** [p.suffix]: from the last dot of the name, when that dot is
    neither its first nor its last character. *)
Definition suffix (p : Path) : string :=
  let name := name p in
  let i := PyStr.rfind "." name in
  if (0 <? i) && (i <? PyStr.len name - 1)
  then PyStr.drop (Z.to_nat i) name
  else "".

(** [p.stem]: the name without its suffix. *)
Definition stem (p : Path) : string :=
  let name := name p in
  let i := PyStr.rfind "." name in
  if (0 <? i) && (i <? PyStr.len name - 1)
  then PyStr.take (Z.to_nat i) name
  else name.

Definition path_eqb (p q : Path) : bool :=
  String.eqb (root p) (root q)
  && (if list_eq_dec string_dec (parts p) (parts q) then true else false).

End Pathlib.

Import Pathlib.

(** ** Exceptions *)

(** An exception is represented by its message, [str(e)]. *)
Definition exn : Type := string.

Inductive result (A : Type) : Type :=
| Returns (a : A)
| Raises (e : exn).
Arguments Returns {A} a.
Arguments Raises {A} e.

(** ** Python numbers: [int / int], [float * int], [int(float)] *)

Module PyFloat.

Definition prec : Z := 53.
Definition emax : Z := 1024.

Definition float : Type := spec_float.

(** An integer as an unrounded binary number with exponent 0. *)
Definition exact_of_int (n : Z) : spec_float :=
  match n with
  | Z0 => S754_zero false
  | Zpos m => S754_finite false m 0
  | Zneg m => S754_finite true m 0
  end.

(** [float(n)]: the nearest double, ties to even. *)
Definition of_int (n : Z) : result float :=
  match binary_normalize prec emax n 0 false with
  | S754_infinity _ => Raises "int too large to convert to float"
  | x => Returns x
  end.

(** [a / b] for two [int]s: the correctly rounded quotient. *)
Definition truediv (a b : Z) : result float :=
  if b =? 0 then Raises "division by zero"
  else match SFdiv prec emax (exact_of_int a) (exact_of_int b) with
       | S754_infinity _ => Raises "integer division result too large for a float"
       | x => Returns x
       end.

(** [x * n] for a [float] and an [int]: [n] is converted first. *)
Definition mul_int (x : float) (n : Z) : result float :=
  match of_int n with
  | Returns y => Returns (SFmul prec emax x y)
  | Raises e => Raises e
  end.

(** [int(x)]: truncation towards zero. *)
Definition to_int (x : float) : result Z :=
  match x with
  | S754_zero _ => Returns 0
  | S754_finite s m e =>
      let magnitude :=
        match e with
        | Z0 => Zpos m
        | Zpos _ => Zpos m * 2 ^ e
        | Zneg _ => Zpos m / 2 ^ (- e)
        end in
      Returns (if s then - magnitude else magnitude)
  | S754_infinity _ => Raises "cannot convert float infinity to integer"
  | S754_nan => Raises "cannot convert float NaN to integer"
  end.

End PyFloat.

(** [int((max_width / width) * height)], line 92. *)
Definition new_height (max_width width height : Z) : result Z :=
  match PyFloat.truediv max_width width with
  | Raises e => Raises e
  | Returns ratio =>
      match PyFloat.mul_int ratio height with
      | Raises e => Raises e
      | Returns scaled => PyFloat.to_int scaled
      end
  end.

(** ** The platform: file system and image codec *)

(** What [process_images] asks of its environment.  A world is a state
    of the file system.  Operations that can fail return a [result];
    those that write return the next world as well, whatever the
    outcome: nothing is said of what a failed [mkdir] or [save] leaves
    behind.  The tests [exists], [is_dir] and [is_file] answer [False]
    where the operating system reports an error. *)
Class Platform (World Image : Type) : Type := {
  (** [p.exists()], [p.is_dir()], [p.is_file()] *)
  path_exists : World -> Path -> bool;
  path_is_dir : World -> Path -> bool;
  path_is_file : World -> Path -> bool;
  (** [p.iterdir()], in the enumeration order of the directory *)
  path_iterdir : World -> Path -> result (list Path);
  (** [p.mkdir(exist_ok=True)] *)
  path_mkdir : World -> Path -> World * result unit;
  (** [Image.open(p)] *)
  image_open : World -> Path -> result Image;
  (** [img.convert(mode)] *)
  image_convert : Image -> string -> result Image;
  (** [img.size], as [(width, height)] *)
  image_size : Image -> Z * Z;
  (** [img.resize(size, Image.Resampling.LANCZOS)] *)
  image_resize : Image -> Z * Z -> result Image;
  (** [img.save(p, format=..., quality=..., method=...)] *)
  image_save : World -> Image -> Path -> string -> Z -> option Z
               -> World * result unit;
  (** Directories and regular files exist, and a world holds finitely
      many paths. *)
  path_is_dir_exists : forall w p,
      path_is_dir w p = true -> path_exists w p = true;
  path_is_file_exists : forall w p,
      path_is_file w p = true -> path_exists w p = true;
  world_finite : forall w,
      exists listing, forall p, path_exists w p = true -> In p listing;
  (** Pillow keeps the size under a mode conversion, and a resized
      image has the size that was asked for. *)
  image_convert_size : forall img mode img',
      image_convert img mode = Returns img' -> image_size img' = image_size img;
  image_resize_size : forall img size img',
      image_resize img size = Returns img' -> image_size img' = size
}.

(** ** Console output *)

(** One constructor per [print] of [process_images]; the arguments are
    the values interpolated in the message. *)
Inductive Msg : Type :=
| MsgAnalyzing                                      (* line 54 *)
| MsgIgnored (clean_path : string)                  (* line 70 *)
| MsgNoImages                                       (* line 73 *)
| MsgStart (count max_width : Z) (save_format : string)   (* line 76 *)
| MsgSaved (name : string) (numbered : bool)        (* lines 106, 108 *)
| MsgError (name : string) (e : exn)                (* line 113 *)
| MsgDone (success_count total : Z).                (* line 115 *)

(** ** The monad of the embedding *)

Inductive outcome (A : Type) : Type :=
| Ok (a : A)          (* normal completion *)
| Exn (e : exn)       (* an exception propagates *)
| OutOfFuel.          (* the fuel of a [while True] loop ran out *)
Arguments Ok {A} a.
Arguments Exn {A} e.
Arguments OutOfFuel {A}.

Section Monad.

Context {World : Type}.

Record State : Type := mkState { world : World; stdout : list Msg }.

Definition M (A : Type) : Type := State -> State * outcome A.

Definition ret {A} (a : A) : M A := fun st => (st, Ok a).

Definition bind {A B} (m : M A) (k : A -> M B) : M B :=
  fun st =>
    match m st with
    | (st', Ok a) => k a st'
    | (st', Exn e) => (st', Exn e)
    | (st', OutOfFuel) => (st', OutOfFuel)
    end.

(** A call that only reads the world. *)
Definition query {A} (f : World -> A) : M A :=
  fun st => (st, Ok (f (world st))).

Definition lift {A} (r : result A) : M A :=
  fun st => (st, match r with Returns a => Ok a | Raises e => Exn e end).

(** A call that reads the world and can raise. *)
Definition ask {A} (f : World -> result A) : M A :=
  fun st => lift (f (world st)) st.

(** A call that writes to the world and can raise. *)
Definition act {A} (f : World -> World * result A) : M A :=
  fun st =>
    let '(w', r) := f (world st) in
    lift r (mkState w' (stdout st)).

Definition print (m : Msg) : M unit :=
  fun st => (mkState (world st) (stdout st ++ [m]), Ok tt).

(** A loop that did not finish within its fuel. *)
Definition of_fuel {A} (o : option A) : M A :=
  fun st => (st, match o with Some a => Ok a | None => OutOfFuel end).

(** [try: body / except Exception as e: handler e] *)
Definition try_except {A} (body : M A) (handler : exn -> M A) : M A :=
  fun st =>
    match body st with
    | (st', Exn e) => handler e st'
    | r => r
    end.

End Monad.

Arguments State World : clear implicits.
Arguments M World A : clear implicits.

Declare Scope py_scope.
Delimit Scope py_scope with py.
Notation "x <- m ;; k" := (bind m (fun x => k))
  (at level 61, m at next level, right associativity) : py_scope.
Notation "m ;; k" := (bind m (fun _ => k))
  (at level 61, right associativity) : py_scope.

(** ** The program *)

(** [IMAGE_EXTENSIONS], line 19. *)
Definition IMAGE_EXTENSIONS : list string :=
  [".jpg"; ".jpeg"; ".png"; ".webp"; ".bmp"; ".tiff"].

(** [x in xs] for strings. *)
Definition str_in (x : string) (xs : list string) : bool :=
  existsb (String.eqb x) xs.

(** The double quote character as a string. *)
Definition dquote : string := String "034"%char EmptyString.

(** The settings chosen at lines 42 to 49. *)
Record Settings : Type := mkSettings {
  save_format : string;
  save_extension : string;
  output_folder_name : string
}.

Definition settings_of (mode_type : string) : Settings :=
  if str_in mode_type ["webp"; "w"]
  then mkSettings "WebP" ".webp" "webp"
  else mkSettings "JPEG" ".jpg" "jpg".

Section Program.

Context {World Image : Type} {platform : Platform World Image}.

Local Open Scope py_scope.

(** *** [get_unique_filepath], lines 21 to 36 *)

(** The path tested by the loop for a given counter, lines 32 and 33. *)
Definition numbered_path (directory : Path) (stem suffix : string)
           (counter : Z) : Path :=
  let new_filename := (stem ++ "_" ++ PyStr.of_int counter ++ suffix)%string in
  joinpath directory new_filename.

(** The [while True] loop, lines 31 to 36, with fuel. *)
Fixpoint unique_loop (fuel : nat) (w : World) (directory : Path)
         (stem suffix : string) (counter : Z) : option Path :=
  match fuel with
  | O => None
  | S fuel' =>
      let new_path := numbered_path directory stem suffix counter in
      if negb (path_exists w new_path) then Some new_path
      else unique_loop fuel' w directory stem suffix (counter + 1)
  end.

Definition get_unique_filepath (fuel : nat) (w : World) (directory : Path)
           (filename : string) : option Path :=
  let file_path := joinpath directory filename in
  if negb (path_exists w file_path) then Some file_path
  else
    let stem := stem file_path in
    let suffix := suffix file_path in
    unique_loop fuel w directory stem suffix 1.

(** *** [process_images]: collection, lines 51 to 70 *)

(** The test of lines 64 and 67 on the extension. *)
Definition supported (p : Path) : bool :=
  str_in (PyStr.lower (suffix p)) IMAGE_EXTENSIONS.

(** The inner loop over the children of a directory, lines 63 to 65. *)
Definition collect_children (w : World) (children target_files : list Path)
  : list Path :=
  fold_left
    (fun target_files child =>
       if path_is_file w child && supported child
       then target_files ++ [child]
       else target_files)
    children target_files.

(** Lines 59 to 70: what is done with a cleaned, non-empty string. *)
Definition collect_path (clean_path : string) (target_files : list Path)
  : M World (list Path) :=
  let path_obj := of_string clean_path in
  is_dir <- query (fun w => path_is_dir w path_obj) ;;
  if is_dir then
    children <- ask (fun w => path_iterdir w path_obj) ;;
    w <- query (fun w => w) ;;
    ret (collect_children w children target_files)
  else
    is_file <- query (fun w => path_is_file w path_obj) ;;
    if is_file then
      if supported path_obj
      then ret (target_files ++ [path_obj])
      else ret target_files
    else
      print (MsgIgnored clean_path) ;;
      ret target_files.

(** One iteration of the loop over [path_strings], lines 56 to 70. *)
Definition collect_one (p_str : string) (target_files : list Path)
  : M World (list Path) :=
  let clean_path := PyStr.strip "'" (PyStr.strip dquote p_str) in
  if String.eqb clean_path "" then ret target_files
  else collect_path clean_path target_files.

Fixpoint collect (path_strings : list string) (target_files : list Path)
  : M World (list Path) :=
  match path_strings with
  | [] => ret target_files
  | p_str :: rest =>
      target_files <- collect_one p_str target_files ;;
      collect rest target_files
  end.

(** *** [process_images]: conversion, lines 79 to 115 *)

(** Lines 90 to 93. *)
Definition resize_step (img : Image) (max_width : Z) : result Image :=
  let '(width, height) := image_size img in
  if width >? max_width then
    match new_height max_width width height with
    | Raises e => Raises e
    | Returns new_height => image_resize img (max_width, new_height)
    end
  else Returns img.

(** The test of line 105. *)
Definition was_numbered (output_path image_path : Path) : bool :=
  negb (String.eqb (stem output_path) (stem image_path))
  && PyStr.isdigit (last (PyStr.split "_" (stem output_path)) "").

(** The body of the [try], lines 83 to 110. *)
Definition convert_one (fuel : nat) (cfg : Settings) (max_width : Z)
           (image_path : Path) : M World unit :=
  let output_dir := joinpath (parent image_path) (output_folder_name cfg) in
  act (fun w => path_mkdir w output_dir) ;;
  img <- ask (fun w => image_open w image_path) ;;
  img <- lift (image_convert img "RGB") ;;
  img <- lift (resize_step img max_width) ;;
  found <- query (fun w =>
             get_unique_filepath fuel w output_dir
               (stem image_path ++ save_extension cfg)%string) ;;
  output_path <- of_fuel found ;;
  (if String.eqb (save_format cfg) "WebP"
   then act (fun w => image_save w img output_path "WebP" 80 (Some 6))
   else act (fun w => image_save w img output_path "JPEG" 80 None)) ;;
  print (MsgSaved (name output_path) (was_numbered output_path image_path)).

(** The loop of lines 80 to 113; [success_count] is threaded through. *)
Fixpoint convert_loop (fuel : nat) (cfg : Settings) (max_width : Z)
         (target_files : list Path) (success_count : Z) : M World Z :=
  match target_files with
  | [] => ret success_count
  | image_path :: rest =>
      success_count <-
        try_except
          (convert_one fuel cfg max_width image_path ;;
           ret (success_count + 1))
          (fun e =>
             print (MsgError (name image_path) e) ;;
             ret success_count) ;;
      convert_loop fuel cfg max_width rest success_count
  end.

(** Lines 76 to 115: the conversion of a non-empty batch. *)
Definition convert_all (fuel : nat) (cfg : Settings) (max_width : Z)
           (target_files : list Path) : M World unit :=
  print (MsgStart (PyStr.len_list target_files) max_width (save_format cfg)) ;;
  success_count <- convert_loop fuel cfg max_width target_files 0 ;;
  print (MsgDone success_count (PyStr.len_list target_files)).

(** [process_images], lines 38 to 115. *)
Definition process_images (fuel : nat) (path_strings : list string)
           (max_width : Z) (mode_type : string) : M World unit :=
  let cfg := settings_of mode_type in
  print MsgAnalyzing ;;
  target_files <- collect path_strings [] ;;
  match target_files with
  | [] => print MsgNoImages
  | _ => convert_all fuel cfg max_width target_files
  end.

End Program.

(** ** A small platform to run the program on

    An in-memory file system: an association list from paths to nodes,
    in enumeration order.  A file holds a picture, given by its mode and
    size, or bytes that no decoder accepts. *)

Module Sim.

Inductive Content : Type :=
| Picture (mode : string) (width height : Z)
| Garbage.

Inductive Node : Type :=
| Dir
| File (c : Content).

Record Image : Type := mkImage { im_mode : string; im_width : Z; im_height : Z }.

Definition World : Type := list (Path * Node).

Fixpoint lookup (w : World) (p : Path) : option Node :=
  match w with
  | [] => None
  | (q, n) :: w' => if path_eqb q p then Some n else lookup w' p
  end.

Definition exists_ (w : World) (p : Path) : bool :=
  match lookup w p with Some _ => true | None => false end.

Definition is_dir (w : World) (p : Path) : bool :=
  match lookup w p with Some Dir => true | _ => false end.

Definition is_file (w : World) (p : Path) : bool :=
  match lookup w p with Some (File _) => true | _ => false end.

Definition is_child (d : Path) (q : Path) : bool :=
  match parts q with
  | [] => false
  | _ => path_eqb (parent q) d
  end.

Definition iterdir (w : World) (d : Path) : result (list Path) :=
  if is_dir w d
  then Returns (map fst (filter (fun e => is_child d (fst e)) w))
  else Raises "Not a directory".

Definition mkdir (w : World) (p : Path) : World * result unit :=
  match lookup w p with
  | Some Dir => (w, Returns tt)
  | Some (File _) => (w, Raises "File exists")
  | None =>
      if is_dir w (parent p) then (w ++ [(p, Dir)], Returns tt)
      else (w, Raises "No such file or directory")
  end.

Definition open (w : World) (p : Path) : result Image :=
  match lookup w p with
  | Some (File (Picture m width height)) => Returns (mkImage m width height)
  | Some (File Garbage) => Raises "cannot identify image file"
  | Some Dir => Raises "Is a directory"
  | None => Raises "No such file or directory"
  end.

Definition convert (img : Image) (mode : string) : result Image :=
  Returns (mkImage mode (im_width img) (im_height img)).

Definition size (img : Image) : Z * Z := (im_width img, im_height img).

Definition resize (img : Image) (size : Z * Z) : result Image :=
  let '(width, height) := size in
  if (width <? 1) || (height <? 1)
  then Raises "height and width must be > 0"
  else Returns (mkImage (im_mode img) width height).

Fixpoint write (w : World) (p : Path) (n : Node) : World :=
  match w with
  | [] => [(p, n)]
  | (q, m) :: w' =>
      if path_eqb q p then (q, n) :: w' else (q, m) :: write w' p n
  end.

Definition save (w : World) (img : Image) (p : Path) (format : string)
           (quality : Z) (method : option Z) : World * result unit :=
  if is_dir w (parent p) && negb (is_dir w p)
  then (write w p (File (Picture (im_mode img) (im_width img) (im_height img))),
        Returns tt)
  else (w, Raises "No such file or directory").

End Sim.

(** ** Definitions used in the statements *)

(** *** The worlds of the examples *)

(** The directory [photos] under the current directory. *)
Definition photos : Path := of_string "photos".

(** [photos] with two files left by earlier conversions. *)
Definition taken_world : Sim.World :=
  [ (of_string "", Sim.Dir);
    (photos, Sim.Dir);
    (of_string "photos/a.jpg", Sim.File (Sim.Picture "RGB" 10 10));
    (of_string "photos/a_1.jpg", Sim.File (Sim.Picture "RGB" 10 10)) ].

(** [photos] with pictures to convert, a text file, and a file that
    no decoder accepts. *)
Definition album : Sim.World :=
  [ (of_string "", Sim.Dir);
    (photos, Sim.Dir);
    (of_string "photos/wide.png", Sim.File (Sim.Picture "RGBA" 2000 1000));
    (of_string "photos/tall.png", Sim.File (Sim.Picture "RGB" 800 3000));
    (of_string "photos/square.JPG", Sim.File (Sim.Picture "RGB" 1062 1062));
    (of_string "photos/notes.txt", Sim.File Sim.Garbage);
    (of_string "photos/broken.png", Sim.File Sim.Garbage);
    (of_string "photos/small.bmp", Sim.File (Sim.Picture "L" 640 480));
    (of_string "photos/icon.webp", Sim.File (Sim.Picture "RGBA" 64 64)) ].

(** The album once [photos/jpg] exists. *)
Definition album_jpg : Sim.World := album ++ [(of_string "photos/jpg", Sim.Dir)].


(** *** Names and strings *)


(** A file name that pathlib keeps as one component. *)
Definition simple_name (x : string) : Prop :=
  PyStr.char_in "/" x = false /\ (2 <= String.length x)%nat.

(** The first, respectively last, character of [s] belongs to [chars]. *)
Definition starts_in (chars s : string) : bool :=
  match s with
  | EmptyString => false
  | String c _ => PyStr.char_in c chars
  end.

Fixpoint ends_in (chars s : string) : bool :=
  match s with
  | EmptyString => false
  | String c EmptyString => PyStr.char_in c chars
  | String _ s' => ends_in chars s'
  end.

(** Every character of [s] belongs to [chars]. *)
Definition all_in (chars s : string) : bool :=
  forallb (fun c => PyStr.char_in c chars) (list_ascii_of_string s).

(** Python's whitespace, as [str.strip()] removes it. *)
Definition whitespace : string :=
  String " " (String "009" (String "010" (String "011" (String "012"
    (String "013" EmptyString))))).

(** The cleaning as the specification words it: surrounding quotes of
    both kinds and surrounding whitespace are removed. *)
Definition spec_clean (p_str : string) : string :=
  PyStr.strip (String "'" (String "034" whitespace)) p_str.

(** *** The size of a resized image *)

(** The claim as the specification words it: the height of the resized
    image is [floor(maxWidth * originalHeight / originalWidth)] over
    exact integers. *)
Definition spec_new_height (max_width width height : Z) : Z :=
  max_width * height / width.

(** *** Messages of a batch *)



(** *** The runs of the program, call by call *)

Section Runs.

Context {World Image : Type} {platform : Platform World Image}.

(** The [save] call of lines 99 to 102. *)
Definition save_call (cfg : Settings) (w : World) (img : Image)
           (output_path : Path) : World * result unit :=
  if String.eqb (save_format cfg) "WebP"
  then image_save w img output_path "WebP" 80 (Some 6)
  else image_save w img output_path "JPEG" 80 None.

(** What follows the [save] call: the message of the file, or the
    exception of the call. *)
Definition after_save (st : State World) (image_path output_path : Path)
           (saved : World * result unit) : State World * outcome unit :=
  match saved with
  | (w', Returns _) =>
      (mkState w'
         (stdout st
          ++ [MsgSaved (name output_path) (was_numbered output_path image_path)]),
       Ok tt)
  | (w', Raises e) => (mkState w' (stdout st), Exn e)
  end.

(** The run of [convert_one], call by call. *)
Definition convert_one_run (fuel : nat) (cfg : Settings) (max_width : Z)
           (image_path : Path) (st : State World) : State World * outcome unit :=
  let output_dir := joinpath (parent image_path) (output_folder_name cfg) in
  match path_mkdir (world st) output_dir with
  | (w1, Raises e) => (mkState w1 (stdout st), Exn e)
  | (w1, Returns _) =>
      let st1 := mkState w1 (stdout st) in
      match image_open w1 image_path with
      | Raises e => (st1, Exn e)
      | Returns img0 =>
          match image_convert img0 "RGB" with
          | Raises e => (st1, Exn e)
          | Returns img1 =>
              match resize_step img1 max_width with
              | Raises e => (st1, Exn e)
              | Returns img2 =>
                  match get_unique_filepath fuel w1 output_dir
                          (stem image_path ++ save_extension cfg)%string with
                  | None => (st1, OutOfFuel)
                  | Some output_path =>
                      after_save st1 image_path output_path
                        (save_call cfg w1 img2 output_path)
                  end
              end
          end
      end
  end.

(** The candidates among the children of a directory. *)
Definition candidates (w : World) (children : list Path) : list Path :=
  filter (fun child => path_is_file w child && supported child) children.


End Runs.

(** ** Definitions used in the further properties *)

(** An extension as [suffix] returns it: a dot, then at least one
    character and no further dot. *)
Definition proper_extension (ext : string) : Prop :=
  exists e, ext = String "." e /\ e <> "" /\ PyStr.char_in "." e = false.


(** The messages that collection prints. *)
Definition is_ignored (m : Msg) : Prop :=
  match m with
  | MsgIgnored _ => True
  | _ => False
  end.


(** ** [main], lines 117 to 151 *)

(** The command line as [argparse] hands it over, line 123: the
    positional inputs, [--width] and [--type]. *)
Record Args : Type := mkArgs {
  args_inputs : list string;
  args_width : Z;
  args_type : string
}.

(** What [main] asks of its environment besides the platform:
    [shlex.split], and the class test of [except ValueError] on the
    representation of an exception.  [shlex.split] raises nothing but
    [ValueError]. *)
Class Console : Type := {
  shlex_split : string -> result (list string);
  is_value_error : exn -> bool;
  shlex_split_raises :
    forall s e, shlex_split s = Raises e -> is_value_error e = true
}.

(** What a call of [input] meets: a line typed by the user, or the
    interrupt key, which raises [KeyboardInterrupt].  The list of the
    events to come is the standard input; once it is empty, [input]
    raises [EOFError].  The interrupt is taken while the program waits
    for a line. *)
Inductive Event : Type :=
| Line (s : string)
| Interrupt.

Definition eof_error : exn := "EOF when reading a line".

(** What a session prints: the messages of [process_images] and those
    of [main]. *)
Inductive Shown : Type :=
| Batch (m : Msg)                          (* printed by [process_images] *)
| MsgBanner (width : Z) (type : string)    (* line 131 *)
| MsgHowToQuit                             (* line 132 *)
| MsgRule                                  (* lines 133 and 146 *)
| MsgPrompt                                (* the prompt of [input], line 137 *)
| MsgBye                                   (* line 140 *)
| MsgInterrupted                           (* line 151 *)
| MsgParseFailed.                          (* line 148 *)

(** The whitespace that [str.strip()] removes, on ASCII. *)
Definition py_whitespace : string :=
  String "009" (String "010" (String "011" (String "012" (String "013"
    (String "028" (String "029" (String "030" (String "031"
      (String " " EmptyString))))))))).

Definition QUIT_WORDS : list string := ["q"; "quit"; "exit"].

(** The test of line 139. *)
Definition quits (input_str : string) : bool :=
  String.eqb input_str "" || str_in (PyStr.lower input_str) QUIT_WORDS.

(** The state of a session: the file system, what was printed, and the
    events not yet read. *)
Record Session (World : Type) : Type := mkSession {
  files : World;
  shown : list Shown;
  unread : list Event
}.
Arguments mkSession {World} files shown unread.
Arguments files {World} s.
Arguments shown {World} s.
Arguments unread {World} s.

Section Main.

Context {World Image : Type} {platform : Platform World Image}
        {console : Console}.

(** A call of [process_images] from [main]: what it prints is added to
    what the session has printed. *)
Definition run_batch (fuel : nat) (path_strings : list string) (args : Args)
           (w : World) : State World * outcome unit :=
  process_images fuel path_strings (args_width args) (args_type args)
    (mkState w []).

(** The loop of lines 136 to 148 inside the [try] of line 135, by
    recursion on the events that [input] meets. *)
Fixpoint interactive (fuel : nat) (args : Args) (stdin : list Event)
         (w : World) (out : list Shown) : Session World * outcome unit :=
  match stdin with
  | [] => (mkSession w (out ++ [MsgPrompt]) [], Exn eof_error)
  | Interrupt :: rest =>
      (mkSession w (out ++ [MsgPrompt; MsgInterrupted]) rest, Ok tt)
  | Line line :: rest =>
      let out := out ++ [MsgPrompt] in
      let input_str := PyStr.strip py_whitespace line in
      if quits input_str then (mkSession w (out ++ [MsgBye]) rest, Ok tt)
      else
        match shlex_split input_str with
        | Raises e =>
            if is_value_error e
            then interactive fuel args rest w (out ++ [MsgParseFailed])
            else (mkSession w out rest, Exn e)
        | Returns path_strings =>
            match run_batch fuel path_strings args w with
            | (st, Ok _) =>
                interactive fuel args rest (world st)
                  (out ++ map Batch (stdout st) ++ [MsgRule])
            | (st, Exn e) =>
                if is_value_error e
                then interactive fuel args rest (world st)
                       (out ++ map Batch (stdout st) ++ [MsgParseFailed])
                else (mkSession (world st) (out ++ map Batch (stdout st)) rest,
                      Exn e)
            | (st, OutOfFuel) =>
                (mkSession (world st) (out ++ map Batch (stdout st)) rest,
                 OutOfFuel)
            end
        end
  end.


End Main.

(** *** [shlex.split] for the examples

    The POSIX rules of [shlex.split(s)]: blanks separate the words; a
    single quote keeps everything up to the next one; a double quote
    does too, except that a backslash before a double quote or a
    backslash stands for that character; outside quotes a backslash
    stands for the character after it. *)

Module Shlex.

Inductive lexer_state : Type :=
| Blank
| Word
| InQuote (q : ascii)
| Escaped (back : option ascii).

Definition blanks : string :=
  String " " (String "009" (String "013" (String "010" EmptyString))).

Definition snoc (token : string) (c : ascii) : string :=
  (token ++ String c EmptyString)%string.

Fixpoint lex (s : string) (state : lexer_state) (token : string)
         (quoted : bool) (acc : list string) : result (list string) :=
  match s with
  | EmptyString =>
      match state with
      | Blank => Returns acc
      | Word => Returns (acc ++ [token])
      | InQuote _ => Raises "No closing quotation"
      | Escaped _ => Raises "No escaped character"
      end
  | String c s' =>
      match state with
      | Blank =>
          if PyStr.char_in c blanks then lex s' Blank token quoted acc
          else if Ascii.eqb c "\" then lex s' (Escaped None) token quoted acc
          else if Ascii.eqb c "'" || Ascii.eqb c "034"
               then lex s' (InQuote c) token true acc
          else lex s' Word (String c EmptyString) quoted acc
      | InQuote q =>
          if Ascii.eqb c q then lex s' Word token quoted acc
          else if Ascii.eqb c "\" && Ascii.eqb q "034"
               then lex s' (Escaped (Some q)) token quoted acc
          else lex s' (InQuote q) (snoc token c) quoted acc
      | Escaped back =>
          match back with
          | Some q =>
              if negb (Ascii.eqb c "\") && negb (Ascii.eqb c q)
              then lex s' (InQuote q) (snoc (snoc token "\") c) quoted acc
              else lex s' (InQuote q) (snoc token c) quoted acc
          | None => lex s' Word (snoc token c) quoted acc
          end
      | Word =>
          if PyStr.char_in c blanks
          then if negb (String.eqb token "") || quoted
               then lex s' Blank "" false (acc ++ [token])
               else lex s' Blank "" false acc
          else if Ascii.eqb c "'" || Ascii.eqb c "034"
               then lex s' (InQuote c) token true acc
          else if Ascii.eqb c "\" then lex s' (Escaped None) token quoted acc
          else lex s' Word (snoc token c) quoted acc
      end
  end.

Definition split (s : string) : result (list string) :=
  lex s Blank "" false [].

Definition value_errors : list exn :=
  ["No closing quotation"; "No escaped character"].

End Shlex.

(** The command line of the examples: no input, the defaults of lines
    120 and 121. *)
Definition default_args : Args := mkArgs [] 1200 "jpeg".



(** * Properties *)

(** ** Strings and paths *)

Lemma take_drop (n : nat) (s : string) :
  (PyStr.take n s ++ PyStr.drop n s)%string = s.
Proof.
  revert s; induction n as [|n IH]; intros [|c s]; simpl; try reflexivity.
  now rewrite IH.
Qed.

Lemma stem_suffix (p : Path) : (stem p ++ suffix p)%string = name p.
Proof.
  unfold stem, suffix.
  destruct ((0 <? _) && _).
  - apply take_drop.
  - clear. induction (name p) as [|c s IH]; simpl; [reflexivity | now rewrite IH].
Qed.

Lemma path_eqb_eq (p q : Path) : path_eqb p q = true <-> p = q.
Proof.
  unfold path_eqb. destruct p as [r1 l1], q as [r2 l2]; simpl.
  destruct (list_eq_dec string_dec l1 l2) as [E|N].
  - rewrite andb_true_r, String.eqb_eq. split; intros H; [now subst | now inversion H].
  - rewrite andb_false_r. split; [discriminate | intros H; inversion H; contradiction].
Qed.

Lemma path_eqb_refl (p : Path) : path_eqb p p = true.
Proof. now apply path_eqb_eq. Qed.

Lemma name_snoc (r : string) (l : list string) (x : string) :
  name (mkPath r (l ++ [x])) = x.
Proof. unfold name; simpl. apply last_last. Qed.

Lemma parent_snoc (r : string) (l : list string) (x : string) :
  parent (mkPath r (l ++ [x])) = mkPath r l.
Proof.
  unfold parent; simpl. rewrite removelast_last.
  destruct (l ++ [x]) eqn:E; [|reflexivity].
  now destruct l.
Qed.

(** ** The filename resolver *)

Section Resolver.

Context {World Image : Type} {platform : Platform World Image}.

Variables (w : World) (directory : Path) (stem suffix : string).

Lemma unique_loop_not_existing (fuel : nat) (counter : Z) (p : Path) :
  unique_loop fuel w directory stem suffix counter = Some p ->
  path_exists w p = false.
Proof.
  revert counter; induction fuel as [|fuel IH]; intros counter; simpl; [discriminate|].
  destruct (path_exists w (numbered_path directory stem suffix counter)) eqn:E; simpl.
  - apply IH.
  - intros H; inversion H; now subst.
Qed.

Lemma unique_loop_numbered (fuel : nat) (counter : Z) (p : Path) :
  unique_loop fuel w directory stem suffix counter = Some p ->
  exists n, counter <= n /\ p = numbered_path directory stem suffix n.
Proof.
  revert counter; induction fuel as [|fuel IH]; intros counter; simpl; [discriminate|].
  destruct (path_exists w (numbered_path directory stem suffix counter)); simpl.
  - intros H. destruct (IH _ H) as (n & Hn & ->). exists n. split; [lia | reflexivity].
  - intros H; inversion H. exists counter. split; [lia | reflexivity].
Qed.


(** More fuel does not change an answer. *)
Lemma unique_loop_more_fuel (fuel fuel' : nat) (counter : Z) (p : Path) :
  unique_loop fuel w directory stem suffix counter = Some p ->
  (fuel <= fuel')%nat ->
  unique_loop fuel' w directory stem suffix counter = Some p.
Proof.
  revert fuel' counter; induction fuel as [|fuel IH]; intros fuel' counter; simpl;
    [discriminate|].
  intros H Hle. destruct fuel' as [|fuel']; [lia|]. simpl.
  destruct (path_exists w (numbered_path directory stem suffix counter)); simpl in *.
  - apply IH; [assumption | lia].
  - assumption.
Qed.

(** A free counter at or after [counter] is reached with enough fuel. *)
Lemma unique_loop_terminates (n : Z) (counter : Z) :
  counter <= n ->
  path_exists w (numbered_path directory stem suffix n) = false ->
  exists p, unique_loop (S (Z.to_nat (n - counter))) w directory stem suffix counter
            = Some p.
Proof.
  intros Hle Hfree.
  remember (Z.to_nat (n - counter)) as k eqn:Hk.
  revert counter Hle Hk; induction k as [|k IH]; intros counter Hle Hk.
  - assert (counter = n) by lia. subst counter. simpl. rewrite Hfree. simpl. eauto.
  - cbn [unique_loop].
    destruct (path_exists w (numbered_path directory stem suffix counter)); simpl.
    + apply IH; lia.
    + eauto.
Qed.

End Resolver.

(** ** The in-memory platform is a platform *)

Lemma sim_lookup_listed (w : Sim.World) (p : Path) (n : Sim.Node) :
  Sim.lookup w p = Some n -> In p (map fst w).
Proof.
  induction w as [|[q m] w IH]; simpl; [discriminate|].
  destruct (path_eqb q p) eqn:E.
  - intros _. left. now apply path_eqb_eq.
  - intros H. right. now apply IH.
Qed.

Lemma sim_is_dir_exists (w : Sim.World) (p : Path) :
  Sim.is_dir w p = true -> Sim.exists_ w p = true.
Proof. unfold Sim.is_dir, Sim.exists_. now destruct (Sim.lookup w p). Qed.

Lemma sim_is_file_exists (w : Sim.World) (p : Path) :
  Sim.is_file w p = true -> Sim.exists_ w p = true.
Proof. unfold Sim.is_file, Sim.exists_. now destruct (Sim.lookup w p). Qed.

Lemma sim_world_finite (w : Sim.World) :
  exists listing, forall p, Sim.exists_ w p = true -> In p listing.
Proof.
  exists (map fst w). intros p. unfold Sim.exists_.
  destruct (Sim.lookup w p) eqn:E; [|discriminate].
  intros _. eapply sim_lookup_listed; eassumption.
Qed.

Lemma sim_convert_size (img : Sim.Image) (mode : string) (img' : Sim.Image) :
  Sim.convert img mode = Returns img' -> Sim.size img' = Sim.size img.
Proof. unfold Sim.convert. intros H; inversion H; reflexivity. Qed.

Lemma sim_resize_size (img : Sim.Image) (size : Z * Z) (img' : Sim.Image) :
  Sim.resize img size = Returns img' -> Sim.size img' = size.
Proof.
  unfold Sim.resize. destruct size as [width height].
  destruct ((width <? 1) || (height <? 1)); [discriminate|].
  intros H; inversion H; reflexivity.
Qed.

#[global] Instance sim_platform : Platform Sim.World Sim.Image := {|
  path_exists := Sim.exists_;
  path_is_dir := Sim.is_dir;
  path_is_file := Sim.is_file;
  path_iterdir := Sim.iterdir;
  path_mkdir := Sim.mkdir;
  image_open := Sim.open;
  image_convert := Sim.convert;
  image_size := Sim.size;
  image_resize := Sim.resize;
  image_save := Sim.save;
  path_is_dir_exists := sim_is_dir_exists;
  path_is_file_exists := sim_is_file_exists;
  world_finite := sim_world_finite;
  image_convert_size := sim_convert_size;
  image_resize_size := sim_resize_size
|}.

(** ** C1: the filename resolver *)



(** ** Every world has a free counter

    A world holds finitely many paths, the paths numbered by different
    counters differ in one component, so one of the first counters is
    free. *)

Lemma split_not_nil (sep : ascii) (s : string) : PyStr.split sep s <> [].
Proof.
  induction s as [|c s IH]; simpl; [discriminate|].
  destruct (Ascii.eqb c sep); [discriminate|].
  destruct (PyStr.split sep s); discriminate.
Qed.

Lemma split_hd_tl (sep : ascii) (s : string) :
  PyStr.split sep s = hd "" (PyStr.split sep s) :: tl (PyStr.split sep s).
Proof.
  pose proof (split_not_nil sep s). now destruct (PyStr.split sep s).
Qed.

(** Splitting a concatenation joins the last piece of the left part
    with the first piece of the right part. *)
Lemma split_app (sep : ascii) (a b : string) :
  PyStr.split sep (a ++ b)
  = removelast (PyStr.split sep a)
    ++ (last (PyStr.split sep a) "" ++ hd "" (PyStr.split sep b))%string
       :: tl (PyStr.split sep b).
Proof.
  induction a as [|c a IH].
  - simpl. apply split_hd_tl.
  - cbn [String.append PyStr.split]. rewrite IH.
    pose proof (split_not_nil sep a) as Hne.
    destruct (PyStr.split sep a) as [|y ys]; [contradiction|].
    destruct (Ascii.eqb c sep).
    + destruct ys; reflexivity.
    + destruct ys; reflexivity.
Qed.


Lemma string_of_uint_no_slash (d : Decimal.uint) :
  PyStr.char_in "/" (NilEmpty.string_of_uint d) = false.
Proof. induction d; simpl; auto. Qed.

Lemma of_int_no_slash (n : Z) : PyStr.char_in "/" (PyStr.of_int n) = false.
Proof.
  unfold PyStr.of_int, NilZero.string_of_int, NilZero.string_of_uint.
  destruct (Z.to_int n) as [d|d]; destruct d; try reflexivity;
    apply (string_of_uint_no_slash (_ _)) ||
    (change (PyStr.char_in "/" (String "-" ?s)) with (PyStr.char_in "/" s);
     apply (string_of_uint_no_slash (_ _))).
Qed.



Lemma append_length (a b : string) :
  String.length (a ++ b) = (String.length a + String.length b)%nat.
Proof. induction a; simpl; auto. Qed.








Section FreeCounter.

Context {World Image : Type} {platform : Platform World Image}.



Lemma get_unique_filepath_more_fuel (w : World) (directory : Path)
      (filename : string) (fuel fuel' : nat) (p : Path) :
  get_unique_filepath fuel w directory filename = Some p ->
  (fuel <= fuel')%nat ->
  get_unique_filepath fuel' w directory filename = Some p.
Proof.
  unfold get_unique_filepath.
  destruct (path_exists w (joinpath directory filename)); cbn [negb].
  - apply unique_loop_more_fuel.
  - auto.
Qed.

End FreeCounter.

(** ** C9: termination of the resolver *)

(** C9.  When some counter [n >= 1] names a path that does not exist,
    [get_unique_filepath] terminates: there is an amount of fuel from
    which on the loop returns a path, always the same one, although the
    counter has no upper bound. *)
Theorem get_unique_filepath_terminates
  {World Image : Type} {platform : Platform World Image}
  (w : World) (directory : Path) (filename : string) :
  let file_path := joinpath directory filename in
  (exists n, 1 <= n
             /\ path_exists w
                  (numbered_path directory (stem file_path) (suffix file_path) n)
                = false) ->
  exists fuel p, forall fuel', (fuel <= fuel')%nat ->
    get_unique_filepath fuel' w directory filename = Some p.
Proof.
  intros file_path (n & Hn & Hfree).
  unfold get_unique_filepath. fold file_path.
  destruct (path_exists w file_path); cbn [negb].
  - destruct (unique_loop_terminates w directory _ _ n 1 Hn Hfree) as [p Hp].
    eexists _, p. intros fuel' Hle.
    eapply unique_loop_more_fuel; eassumption.
  - exists 0%nat, file_path. reflexivity.
Qed.

(** C9 at [photos / "a.jpg"], where the counter 2 is free. *)
Lemma get_unique_filepath_terminates_witness :
  exists fuel p, forall fuel', (fuel <= fuel')%nat ->
    get_unique_filepath fuel' taken_world photos "a.jpg" = Some p.
Proof.
  apply (get_unique_filepath_terminates taken_world photos "a.jpg").
  exists 2. split; [lia | reflexivity].
Defined.

(** ** C10: the output format *)

(** C10.  Exactly the strings ["webp"] and ["w"] select WebP output
    (format WebP, extension [.webp], folder [webp]); every other string
    selects JPEG output (format JPEG, extension [.jpg], folder [jpg]),
    among them ["jpg"], ["jpeg"], the case variant ["WEBP"] and strings
    that name no format. *)
Theorem format_fallback (mode_type : string) :
  (settings_of mode_type = mkSettings "WebP" ".webp" "webp"
   <-> (mode_type = "webp" \/ mode_type = "w"))
  /\ (settings_of mode_type = mkSettings "JPEG" ".jpg" "jpg"
      <-> (mode_type <> "webp" /\ mode_type <> "w"))
  /\ settings_of "jpg" = mkSettings "JPEG" ".jpg" "jpg"
  /\ settings_of "jpeg" = mkSettings "JPEG" ".jpg" "jpg"
  /\ settings_of "WEBP" = mkSettings "JPEG" ".jpg" "jpg"
  /\ settings_of "tiff" = mkSettings "JPEG" ".jpg" "jpg"
  /\ settings_of "" = mkSettings "JPEG" ".jpg" "jpg".
Proof.
  assert (Hin : str_in mode_type ["webp"; "w"] = true
                <-> (mode_type = "webp" \/ mode_type = "w")).
  { unfold str_in. simpl. rewrite orb_false_r, orb_true_iff, !String.eqb_eq.
    reflexivity. }
  split; [|split; [|repeat split]].
  - rewrite <- Hin. unfold settings_of.
    destruct (str_in mode_type ["webp"; "w"]); split; congruence.
  - assert (Hout : str_in mode_type ["webp"; "w"] = false
                   <-> (mode_type <> "webp" /\ mode_type <> "w")).
    { rewrite <- not_true_iff_false, Hin. tauto. }
    rewrite <- Hout. unfold settings_of.
    destruct (str_in mode_type ["webp"; "w"]); split; congruence.
Qed.

(** ** One file of the batch, step by step *)

Section ConvertOne.

Context {World Image : Type} {platform : Platform World Image}.

Lemma convert_one_unfold (fuel : nat) (cfg : Settings) (max_width : Z)
      (image_path : Path) (st : State World) :
  convert_one fuel cfg max_width image_path st
  = convert_one_run fuel cfg max_width image_path st.
Proof.
  unfold convert_one, convert_one_run, bind, act, ask, query, lift, of_fuel,
    print, after_save, save_call.
  destruct (path_mkdir (world st) _) as [w1 [[]|e]]; cbn; [|reflexivity].
  destruct (image_open w1 image_path) as [img0|e]; cbn; [|reflexivity].
  destruct (image_convert img0 "RGB") as [img1|e]; cbn; [|reflexivity].
  destruct (resize_step img1 max_width) as [img2|e]; cbn; [|reflexivity].
  destruct (get_unique_filepath fuel w1 _ _) as [output_path|]; cbn; [|reflexivity].
  destruct (String.eqb (save_format cfg) "WebP"); cbn.
  - destruct (image_save w1 img2 output_path "WebP" 80 (Some 6)) as [w2 [[]|e]];
      reflexivity.
  - destruct (image_save w1 img2 output_path "JPEG" 80 None) as [w2 [[]|e]];
      reflexivity.
Qed.

End ConvertOne.

(** ** C3: no upscaling *)

Section Resize.

Context {World Image : Type} {platform : Platform World Image}.

Lemma resize_step_narrow (img : Image) (max_width : Z) :
  fst (image_size img) <= max_width -> resize_step img max_width = Returns img.
Proof.
  unfold resize_step. destruct (image_size img) as [width height]. simpl.
  intros H. destruct (width >? max_width) eqn:E; [|reflexivity].
  apply Z.gtb_lt in E. lia.
Qed.


End Resize.

(** C3.  An image whose width is at most [max_width] is not resized,
    whatever its height: once the output folder is made and the image
    decoded and converted to RGB, [resize_step] returns the image
    itself, its size is the size of the decoded image, and the run goes
    on to name the output and to save that very image. *)
Theorem no_upscaling
  {World Image : Type} {platform : Platform World Image}
  (fuel : nat) (cfg : Settings) (max_width : Z) (image_path : Path)
  (st : State World) (w1 : World) (img0 img1 : Image) :
  let output_dir := joinpath (parent image_path) (output_folder_name cfg) in
  path_mkdir (world st) output_dir = (w1, Returns tt) ->
  image_open w1 image_path = Returns img0 ->
  image_convert img0 "RGB" = Returns img1 ->
  fst (image_size img0) <= max_width ->
  resize_step img1 max_width = Returns img1
  /\ image_size img1 = image_size img0
  /\ convert_one fuel cfg max_width image_path st
     = match get_unique_filepath fuel w1 output_dir
               (stem image_path ++ save_extension cfg)%string with
       | None => (mkState w1 (stdout st), OutOfFuel)
       | Some output_path =>
           after_save (mkState w1 (stdout st)) image_path output_path
             (save_call cfg w1 img1 output_path)
       end.
Proof.
  intros output_dir Hmk Hopen Hconv Hnarrow.
  pose proof (image_convert_size _ _ _ Hconv) as Hsize.
  assert (Hstep : resize_step img1 max_width = Returns img1)
    by (apply resize_step_narrow; now rewrite Hsize).
  repeat split; try assumption.
  rewrite convert_one_unfold. unfold convert_one_run. fold output_dir.
  now rewrite Hmk, Hopen, Hconv, Hstep.
Qed.

(** C3 on the tall picture of the album, 800 by 3000, with
    [max_width = 1200]: the file written is 800 by 3000. *)
Lemma no_upscaling_witness :
  let tall := of_string "photos/tall.png" in
  let st := mkState album [] in
  Sim.lookup (world (fst (convert_one 0 (settings_of "jpg") 1200 tall st)))
             (of_string "photos/jpg/tall.jpg")
  = Some (Sim.File (Sim.Picture "RGB" 800 3000)).
Proof.
  intros tall st.
  pose proof (no_upscaling 0 (settings_of "jpg") 1200 tall st album_jpg
                (Sim.mkImage "RGB" 800 3000) (Sim.mkImage "RGB" 800 3000)
                eq_refl eq_refl eq_refl) as H.
  destruct H as (_ & _ & Hrun); [simpl; lia|].
  rewrite Hrun. reflexivity.
Defined.

(** ** C5: where the output goes *)

Lemma char_in_append (c : ascii) (a b : string) :
  PyStr.char_in c (a ++ b) = PyStr.char_in c a || PyStr.char_in c b.
Proof.
  unfold PyStr.char_in. induction a as [|x a IH]; simpl; [reflexivity|].
  now rewrite IH, orb_assoc.
Qed.

Lemma char_in_take (c : ascii) (n : nat) (s : string) :
  PyStr.char_in c s = false -> PyStr.char_in c (PyStr.take n s) = false.
Proof.
  intros H. rewrite <- (take_drop n s), char_in_append in H.
  now apply orb_false_elim in H.
Qed.

Lemma char_in_drop (c : ascii) (n : nat) (s : string) :
  PyStr.char_in c s = false -> PyStr.char_in c (PyStr.drop n s) = false.
Proof.
  intros H. rewrite <- (take_drop n s), char_in_append in H.
  now apply orb_false_elim in H.
Qed.

Lemma stem_no_slash (p : Path) :
  PyStr.char_in "/" (name p) = false -> PyStr.char_in "/" (stem p) = false.
Proof.
  intros H. unfold stem. destruct (_ && _); [now apply char_in_take | exact H].
Qed.

Lemma suffix_no_slash (p : Path) :
  PyStr.char_in "/" (name p) = false -> PyStr.char_in "/" (suffix p) = false.
Proof.
  intros H. unfold suffix. destruct (_ && _); [now apply char_in_drop | reflexivity].
Qed.

Lemma split_no_sep (sep : ascii) (s : string) :
  PyStr.char_in sep s = false -> PyStr.split sep s = [s].
Proof.
  unfold PyStr.char_in. induction s as [|c s IH]; simpl; [reflexivity|].
  intros H. apply orb_false_elim in H as [Hc Hs].
  rewrite Ascii.eqb_sym, Hc, (IH Hs). reflexivity.
Qed.

Lemma joinpath_simple (d : Path) (x : string) :
  simple_name x -> joinpath d x = mkPath (root d) (parts d ++ [x]).
Proof.
  intros [Hslash Hlen]. unfold joinpath.
  assert (Hstart : PyStr.starts_with "/" x = false).
  { destruct x as [|c x]; [reflexivity|].
    unfold PyStr.char_in in Hslash. simpl in Hslash.
    apply orb_false_elim in Hslash as [Hc _]. simpl.
    now rewrite Ascii.eqb_sym. }
  rewrite Hstart. unfold split_parts. rewrite (split_no_sep _ _ Hslash).
  destruct x as [|c [|c' x]]; simpl in Hlen; try lia.
  unfold keep_part. simpl. now destruct (Ascii.eqb c ".").
Qed.

Lemma parent_joinpath_simple (d : Path) (x : string) :
  simple_name x -> parent (joinpath d x) = d.
Proof.
  intros H. rewrite (joinpath_simple d x H), parent_snoc. now destruct d.
Qed.

Lemma name_joinpath_simple (d : Path) (x : string) :
  simple_name x -> name (joinpath d x) = x.
Proof. intros H. rewrite (joinpath_simple d x H). apply name_snoc. Qed.

(** The names the resolver builds from a simple name are simple.  *)
Lemma numbered_name_simple (d : Path) (x : string) (n : Z) :
  simple_name x ->
  simple_name (stem (joinpath d x) ++ "_" ++ PyStr.of_int n
               ++ suffix (joinpath d x)).
Proof.
  intros Hx. pose proof (name_joinpath_simple d x Hx) as Hname.
  destruct Hx as [Hslash Hlen]. rewrite <- Hname in Hslash.
  split.
  - rewrite !char_in_append, (stem_no_slash _ Hslash), (suffix_no_slash _ Hslash),
      of_int_no_slash. reflexivity.
  - pose proof (f_equal String.length (stem_suffix (joinpath d x))) as Hl.
    rewrite Hname, append_length in Hl.
    rewrite !append_length. simpl. lia.
Qed.

Lemma split_pieces_no_sep (sep : ascii) (s x : string) :
  In x (PyStr.split sep s) -> PyStr.char_in sep x = false.
Proof.
  revert x; induction s as [|c s IH]; intros x; simpl.
  - intros [<-|[]]. reflexivity.
  - destruct (Ascii.eqb c sep) eqn:E.
    + intros [<-|H]; [reflexivity | now apply IH].
    + pose proof (split_not_nil sep s) as Hne.
      destruct (PyStr.split sep s) as [|y ys]; [contradiction|].
      intros [<-|H].
      * unfold PyStr.char_in. simpl. rewrite Ascii.eqb_sym, E. simpl.
        apply (IH y). now left.
      * apply IH. now right.
Qed.

(** The name of a path made from a string is one component. *)
Lemma of_string_name_no_slash (s : string) :
  PyStr.char_in "/" (name (of_string s)) = false.
Proof.
  unfold of_string. destruct (splitroot s) as [r rel]. unfold name. cbn [parts].
  unfold split_parts.
  assert (H : forall l, (forall x, In x l -> PyStr.char_in "/" x = false) ->
                        PyStr.char_in "/" (last l "") = false).
  { induction l as [|x [|y l] IH]; intros Hl; [reflexivity|apply Hl; now left|].
    apply IH. intros z Hz. apply Hl. now right. }
  apply H. intros x Hx. apply filter_In in Hx as [Hx _].
  eapply split_pieces_no_sep; eassumption.
Qed.

Section OutputLocation.

Context {World Image : Type} {platform : Platform World Image}.

(** The resolver answers inside the directory it was given. *)
Lemma get_unique_filepath_parent (fuel : nat) (w : World) (directory : Path)
      (filename : string) (p : Path) :
  simple_name filename ->
  get_unique_filepath fuel w directory filename = Some p ->
  parent p = directory.
Proof.
  intros Hsimple. unfold get_unique_filepath.
  destruct (path_exists w (joinpath directory filename)); cbn [negb].
  - intros H. apply unique_loop_numbered in H as (n & _ & ->).
    unfold numbered_path. apply parent_joinpath_simple.
    now apply numbered_name_simple.
  - intros H; inversion H. now apply parent_joinpath_simple.
Qed.

End OutputLocation.

Lemma settings_of_cases (mode_type : string) :
  settings_of mode_type
  = if str_in mode_type ["webp"; "w"]
    then mkSettings "WebP" ".webp" "webp"
    else mkSettings "JPEG" ".jpg" "jpg".
Proof. reflexivity. Qed.

(** C5.  For a source file whose name is one path component (as the
    name of every path that pathlib makes is), a conversion that
    succeeds made the directory [parent / "webp"] (WebP output) or
    [parent / "jpg"] (otherwise) of the source, asked the resolver for
    the file name [stem + ".webp"] or [stem + ".jpg"] in it, and saved
    its output at the path the resolver gave; that path lies directly
    in that directory. *)
Theorem output_location
  {World Image : Type} {platform : Platform World Image}
  (fuel : nat) (mode_type : string) (max_width : Z) (image_path : Path)
  (st st' : State World) :
  let webp := str_in mode_type ["webp"; "w"] in
  let output_dir := joinpath (parent image_path) (if webp then "webp" else "jpg") in
  let filename := (stem image_path ++ (if webp then ".webp" else ".jpg"))%string in
  PyStr.char_in "/" (name image_path) = false ->
  convert_one fuel (settings_of mode_type) max_width image_path st = (st', Ok tt) ->
  exists (w1 : World) (img : Image) (output_path : Path),
    path_mkdir (world st) output_dir = (w1, Returns tt)
    /\ get_unique_filepath fuel w1 output_dir filename = Some output_path
    /\ parent output_path = output_dir
    /\ save_call (settings_of mode_type) w1 img output_path
       = (world st', Returns tt)
    /\ stdout st'
       = stdout st ++ [MsgSaved (name output_path)
                         (was_numbered output_path image_path)].
Proof.
  intros webp output_dir filename Hname.
  rewrite convert_one_unfold. unfold convert_one_run.
  assert (Hdir : joinpath (parent image_path)
                   (output_folder_name (settings_of mode_type)) = output_dir)
    by (rewrite settings_of_cases; unfold output_dir, webp;
        now destruct (str_in mode_type ["webp"; "w"])).
  assert (Hfile : (stem image_path ++ save_extension (settings_of mode_type))%string
                  = filename)
    by (rewrite settings_of_cases; unfold filename, webp;
        now destruct (str_in mode_type ["webp"; "w"])).
  rewrite Hdir, Hfile.
  destruct (path_mkdir (world st) output_dir) as [w1 [[]|e]] eqn:Hmk;
    [|discriminate].
  destruct (image_open w1 image_path) as [img0|e]; [|discriminate].
  destruct (image_convert img0 "RGB") as [img1|e]; [|discriminate].
  destruct (resize_step img1 max_width) as [img2|e]; [|discriminate].
  destruct (get_unique_filepath fuel w1 output_dir filename)
    as [output_path|] eqn:Hres; [|discriminate].
  unfold after_save.
  destruct (save_call (settings_of mode_type) w1 img2 output_path)
    as [w2 [[]|e]] eqn:Hsave; [|discriminate].
  intros H; inversion H; subst st'; clear H. cbn [world stdout].
  exists w1, img2, output_path. repeat split; try assumption.
  apply (get_unique_filepath_parent fuel w1 output_dir filename); [|exact Hres].
  split.
  - unfold filename. rewrite char_in_append, (stem_no_slash _ Hname).
    now destruct webp.
  - unfold filename. rewrite append_length. destruct webp; simpl; lia.
Qed.

(** C5 on the wide picture of the album, converted to WebP. *)
Lemma output_location_witness :
  exists (w1 : Sim.World) (img : Sim.Image) (output_path : Path),
    path_mkdir album (of_string "photos/webp") = (w1, Returns tt)
    /\ get_unique_filepath 0 w1 (of_string "photos/webp") "wide.webp"
       = Some output_path
    /\ parent output_path = of_string "photos/webp"
    /\ save_call (settings_of "w") w1 img output_path
       = (world (fst (convert_one 0 (settings_of "w") 1200
                        (of_string "photos/wide.png") (mkState album []))),
          Returns tt)
    /\ stdout (fst (convert_one 0 (settings_of "w") 1200
                      (of_string "photos/wide.png") (mkState album [])))
       = [] ++ [MsgSaved (name output_path)
                  (was_numbered output_path (of_string "photos/wide.png"))].
Proof.
  apply (output_location 0 "w" 1200 (of_string "photos/wide.png")
           (mkState album [])
           (fst (convert_one 0 (settings_of "w") 1200
                   (of_string "photos/wide.png") (mkState album [])))).
  - reflexivity.
  - vm_compute. reflexivity.
Defined.

(** ** C6: what the collector reports *)

Section Collector.

Context {World Image : Type} {platform : Platform World Image}.

Lemma collect_children_filter (w : World) (children target_files : list Path) :
  collect_children w children target_files
  = target_files ++ candidates w children.
Proof.
  unfold collect_children, candidates.
  revert target_files; induction children as [|child children IH];
    intros target_files; simpl.
  - now rewrite app_nil_r.
  - rewrite IH. destruct (path_is_file w child && supported child).
    + now rewrite <- app_assoc.
    + reflexivity.
Qed.

(** The run of [collect_path], call by call. *)
Lemma collect_path_unfold (clean_path : string) (target_files : list Path)
      (st : State World) :
  collect_path clean_path target_files st
  = let path_obj := of_string clean_path in
    if path_is_dir (world st) path_obj then
      match path_iterdir (world st) path_obj with
      | Raises e => (st, Exn e)
      | Returns children =>
          (st, Ok (target_files ++ candidates (world st) children))
      end
    else if path_is_file (world st) path_obj then
      (st, Ok (if supported path_obj then target_files ++ [path_obj]
               else target_files))
    else (mkState (world st) (stdout st ++ [MsgIgnored clean_path]),
          Ok target_files).
Proof.
  unfold collect_path, bind, query, ask, lift, ret, print. cbv beta zeta.
  destruct (path_is_dir (world st) (of_string clean_path)).
  - destruct (path_iterdir (world st) (of_string clean_path)); cbv beta iota.
    + now rewrite collect_children_filter.
    + reflexivity.
  - destruct (path_is_file (world st) (of_string clean_path)).
    + now destruct (supported (of_string clean_path)).
    + reflexivity.
Qed.

End Collector.




(** ** C7: how the input strings are cleaned *)

Lemma lstrip_spec (chars s : string) :
  exists l, s = (l ++ PyStr.lstrip chars s)%string
            /\ all_in chars l = true
            /\ starts_in chars (PyStr.lstrip chars s) = false.
Proof.
  induction s as [|c s (l & Hl & Hall & Hstart)]; simpl.
  - exists "". auto.
  - destruct (PyStr.char_in c chars) eqn:E.
    + exists (String c l). simpl. repeat split; try assumption.
      * now rewrite <- Hl.
      * unfold all_in in *. simpl. now rewrite E.
    + exists "". simpl. auto.
Qed.

Lemma rstrip_spec (chars s : string) :
  exists r, s = (PyStr.rstrip chars s ++ r)%string
            /\ all_in chars r = true
            /\ ends_in chars (PyStr.rstrip chars s) = false.
Proof.
  induction s as [|c s (r & Hr & Hall & Hend)]; simpl.
  - exists "". auto.
  - destruct (PyStr.rstrip chars s) as [|c' t] eqn:Et.
    + destruct (PyStr.char_in c chars) eqn:E.
      * exists (String c r). simpl in *. repeat split.
        -- now rewrite <- Hr.
        -- unfold all_in in *. simpl. now rewrite E.
      * exists r. simpl in *. repeat split; try assumption. now rewrite <- Hr.
    + exists r. repeat split; try assumption.
      simpl. f_equal. exact Hr.
Qed.

Lemma rstrip_keeps_start (chars s : string) :
  starts_in chars s = false -> starts_in chars (PyStr.rstrip chars s) = false.
Proof.
  destruct s as [|c s]; simpl; [reflexivity|].
  intros H. destruct (PyStr.rstrip chars s); [|exact H].
  now rewrite H.
Qed.

Lemma strip_spec (chars s : string) :
  exists l r, s = (l ++ PyStr.strip chars s ++ r)%string
              /\ all_in chars l = true /\ all_in chars r = true
              /\ starts_in chars (PyStr.strip chars s) = false
              /\ ends_in chars (PyStr.strip chars s) = false.
Proof.
  unfold PyStr.strip.
  destruct (lstrip_spec chars s) as (l & Hl & Hall & Hstart).
  destruct (rstrip_spec chars (PyStr.lstrip chars s)) as (r & Hr & Hallr & Hend).
  exists l, r. repeat split; try assumption.
  - now rewrite <- Hr.
  - now apply rstrip_keeps_start.
Qed.

Lemma lstrip_id (chars s : string) :
  starts_in chars s = false -> PyStr.lstrip chars s = s.
Proof. destruct s; simpl; [reflexivity|]. now intros ->. Qed.

Lemma rstrip_id (chars s : string) :
  ends_in chars s = false -> PyStr.rstrip chars s = s.
Proof.
  induction s as [|c s IH]; [reflexivity|].
  cbn [ends_in PyStr.rstrip]. destruct s as [|c' s].
  - simpl. now intros ->.
  - intros H. rewrite (IH H). reflexivity.
Qed.

Lemma strip_id (chars s : string) :
  starts_in chars s = false -> ends_in chars s = false ->
  PyStr.strip chars s = s.
Proof.
  intros Hs He. unfold PyStr.strip. rewrite (lstrip_id _ _ Hs). now apply rstrip_id.
Qed.

(** C7, as amended.  Each input string loses its leading and trailing
    double quotes, then its leading and trailing single quotes, and
    nothing else: a string that neither starts nor ends with a quote is
    taken as it is, whitespace included.  A string that is empty after
    that is skipped without message and without candidate; any other is
    handed to the path test in its cleaned form. *)
Theorem input_trimming
  {World Image : Type} {platform : Platform World Image}
  (p_str : string) (target_files : list Path) (st : State World) :
  let unquoted := PyStr.strip dquote p_str in
  let clean_path := PyStr.strip "'" unquoted in
  (exists l r, p_str = (l ++ unquoted ++ r)%string
               /\ all_in dquote l = true /\ all_in dquote r = true
               /\ starts_in dquote unquoted = false
               /\ ends_in dquote unquoted = false)
  /\ (exists l r, unquoted = (l ++ clean_path ++ r)%string
                  /\ all_in "'" l = true /\ all_in "'" r = true
                  /\ starts_in "'" clean_path = false
                  /\ ends_in "'" clean_path = false)
  /\ (starts_in (dquote ++ "'") p_str = false ->
      ends_in (dquote ++ "'") p_str = false ->
      clean_path = p_str)
  /\ (clean_path = "" -> collect_one p_str target_files st = (st, Ok target_files))
  /\ (clean_path <> "" ->
      collect_one p_str target_files st = collect_path clean_path target_files st).
Proof.
  intros unquoted clean_path.
  split; [apply strip_spec|]. split; [apply strip_spec|].
  split; [|split].
  - intros Hs He.
    assert (Hsplit : forall s, starts_in (dquote ++ "'") s = false ->
                               starts_in dquote s = false /\ starts_in "'" s = false).
    { intros [|c s]; simpl; [auto|].
      unfold PyStr.char_in; simpl. rewrite orb_false_r.
      intros H. apply orb_false_elim in H as [H1 H2].
      now rewrite H1, H2. }
    assert (Hsplit' : forall s, ends_in (dquote ++ "'") s = false ->
                                ends_in dquote s = false /\ ends_in "'" s = false).
    { induction s as [|c s IH]; [auto|].
      cbn [ends_in]. destruct s as [|c' s]; [|exact IH].
      unfold PyStr.char_in; simpl. rewrite orb_false_r.
      intros H. apply orb_false_elim in H as [H1 H2].
      now rewrite H1, H2. }
    destruct (Hsplit _ Hs) as [Hs1 Hs2]. destruct (Hsplit' _ He) as [He1 He2].
    unfold clean_path, unquoted.
    rewrite (strip_id dquote p_str Hs1 He1). now apply strip_id.
  - intros Hempty. unfold collect_one. fold unquoted. fold clean_path.
    now rewrite Hempty.
  - intros Hne. unfold collect_one. fold unquoted. fold clean_path.
    apply String.eqb_neq in Hne. now rewrite Hne.
Qed.

(** C7 on two inputs: a pair of quotes is skipped silently, and a path
    between spaces keeps its spaces. *)
Lemma input_trimming_witness :
  collect_one (dquote ++ dquote) [] (mkState album []) = (mkState album [], Ok [])
  /\ PyStr.strip "'" (PyStr.strip dquote " photos ") = " photos ".
Proof.
  pose proof (input_trimming (dquote ++ dquote) [] (mkState album []))
    as (_ & _ & _ & Hskip & _).
  pose proof (input_trimming " photos " [] (mkState album []))
    as (_ & _ & Hkeep & _).
  split.
  - apply Hskip. reflexivity.
  - apply Hkeep; reflexivity.
Defined.

(** C7, counterexample.  Whitespace is not trimmed: a single space is
    empty once cleaned as the claim says, yet it is looked up as a path
    and reported; and [" photos"] is not the directory [photos]. *)
Lemma whitespace_is_not_trimmed :
  spec_clean " " = ""
  /\ collect_one " " [] (mkState album [])
     = (mkState album [MsgIgnored " "], Ok [])
  /\ spec_clean " photos" = "photos"
  /\ collect_one " photos" [] (mkState album [])
     = (mkState album [MsgIgnored " photos"], Ok [])
  /\ collect_one "photos" [] (mkState album [])
     <> (mkState album [MsgIgnored " photos"], Ok []).
Proof. repeat split; try reflexivity. vm_compute. discriminate. Qed.

(** ** C4: failure isolation *)

Section Batch.

Context {World Image : Type} {platform : Platform World Image}.

Variables (cfg : Settings) (max_width : Z).








End Batch.



(** ** Double precision arithmetic

    What is needed of [SpecFloat]'s division and multiplication: the
    result of an operation has a mantissa of 53 bits and lies within one
    unit in the last place of the exact result. *)

Ltac hide_pow :=
  repeat match goal with
         | H : context [2 ^ ?e] |- _ =>
             let X := fresh "pw" in set (X := 2 ^ e) in *; clearbody X
         | |- context [2 ^ ?e] =>
             let X := fresh "pw" in set (X := 2 ^ e) in *; clearbody X
         end;
  lia.

(** A number of [d] binary digits lies in [[2^(d-1), 2^d)], and only
    there. *)
Lemma digits2_pos_bounds (p : positive) :
  2 ^ (Zpos (digits2_pos p) - 1) <= Zpos p < 2 ^ Zpos (digits2_pos p).
Proof.
  induction p as [p IH|p IH|]; cbn [digits2_pos].
  - rewrite Pos2Z.inj_succ.
    replace (Z.succ (Z.pos (digits2_pos p)) - 1)
      with (Z.succ (Z.pos (digits2_pos p) - 1)) by lia.
    rewrite !Z.pow_succ_r by lia. hide_pow.
  - rewrite Pos2Z.inj_succ.
    replace (Z.succ (Z.pos (digits2_pos p)) - 1)
      with (Z.succ (Z.pos (digits2_pos p) - 1)) by lia.
    rewrite !Z.pow_succ_r by lia. hide_pow.
  - simpl. lia.
Qed.

Lemma digits2_pos_unique (p : positive) (d : Z) :
  2 ^ (d - 1) <= Zpos p < 2 ^ d -> Zpos (digits2_pos p) = d.
Proof.
  intros [Hlo Hhi]. pose proof (digits2_pos_bounds p) as [Hlo' Hhi'].
  assert (Hd : 0 < d).
  { destruct (Z_lt_le_dec 0 d) as [|Hle]; [assumption|].
    assert (2 ^ d <= 1).
    { destruct (Z.eq_dec d 0) as [->|]; [simpl; lia|].
      rewrite Z.pow_neg_r by lia. lia. }
    lia. }
  destruct (Z.lt_trichotomy (Zpos (digits2_pos p)) d) as [Hlt|[Heq|Hgt]]; [|exact Heq|].
  - assert (2 ^ Zpos (digits2_pos p) <= 2 ^ (d - 1)) by (apply Z.pow_le_mono_r; lia). lia.
  - assert (2 ^ d <= 2 ^ (Zpos (digits2_pos p) - 1)) by (apply Z.pow_le_mono_r; lia). lia.
Qed.

(** Shifting right halves the mantissa, whatever the rounding bits. *)
Lemma shr_1_m (mrs : shr_record) :
  0 <= shr_m mrs -> shr_m (shr_1 mrs) = shr_m mrs / 2.
Proof.
  destruct mrs as [m r s]. cbn [shr_m]. intros Hm.
  destruct m as [|[p|p|]|p]; cbn [shr_1 shr_m]; try lia.
  - reflexivity.
  - apply Z.div_unique with 1; lia.
  - apply Z.div_unique with 0; lia.
  - reflexivity.
Qed.

Lemma iter_shr_1_m (p : positive) (mrs : shr_record) :
  0 <= shr_m mrs ->
  shr_m (iter_pos shr_1 p mrs) = shr_m mrs / 2 ^ Zpos p.
Proof.
  revert mrs; induction p as [p IH|p IH|]; intros mrs Hm; cbn [iter_pos].
  - assert (H1 : 0 <= shr_m (shr_1 mrs))
      by (rewrite shr_1_m by assumption; apply Z.div_pos; lia).
    assert (H2 : 0 <= shr_m (iter_pos shr_1 p (shr_1 mrs)))
      by (rewrite IH by assumption; apply Z.div_pos; [lia|apply Z.pow_pos_nonneg; lia]).
    rewrite IH, IH, shr_1_m by assumption.
    rewrite !Zdiv.Zdiv_Zdiv by (try lia; apply Z.pow_nonneg; lia).
    f_equal.
    replace (Z.pos p~1) with (1 + Z.pos p + Z.pos p) by lia.
    rewrite !Z.pow_add_r by lia. lia.
  - assert (H2 : 0 <= shr_m (iter_pos shr_1 p mrs))
      by (rewrite IH by assumption; apply Z.div_pos; [lia|apply Z.pow_pos_nonneg; lia]).
    rewrite IH, IH by assumption.
    rewrite !Zdiv.Zdiv_Zdiv by (apply Z.pow_nonneg; lia).
    f_equal.
    replace (Z.pos p~0) with (Z.pos p + Z.pos p) by lia.
    rewrite !Z.pow_add_r by lia. lia.
  - now apply shr_1_m.
Qed.

Lemma shr_m_of_loc (m : Z) (l : location) : shr_m (shr_record_of_loc m l) = m.
Proof. destruct l as [|[]]; reflexivity. Qed.

Lemma round_nearest_even_cases (m : Z) (l : location) :
  round_nearest_even m l = m \/ round_nearest_even m l = m + 1.
Proof. destruct l as [|[]]; simpl; auto. destruct (Z.even m); auto. Qed.

Lemma Zdigits2_pos (p : positive) : Zdigits2 (Zpos p) = Zpos (digits2_pos p).
Proof. reflexivity. Qed.

(** The shift that brings a mantissa of more than 53 bits back to 53. *)
Lemma shr_fexp_spec (m : positive) (e : Z) (l : location) :
  let n := Zpos (digits2_pos m) - 53 in
  0 <= n -> -1074 <= e + n ->
  snd (shr_fexp 53 1024 (Zpos m) e l) = e + n
  /\ shr_m (fst (shr_fexp 53 1024 (Zpos m) e l)) = Zpos m / 2 ^ n.
Proof.
  intros n Hn He. unfold shr_fexp, fexp, emin. rewrite Zdigits2_pos.
  replace (Z.max (Z.pos (digits2_pos m) + e - 53) (3 - 1024 - 53) - e) with n
    by (unfold n; lia).
  unfold shr. destruct n as [|p|p] eqn:En; cbn [fst snd].
  - rewrite shr_m_of_loc, Z.pow_0_r, Z.div_1_r. split; [lia|reflexivity].
  - rewrite iter_shr_1_m by (rewrite shr_m_of_loc; lia).
    now rewrite shr_m_of_loc.
  - lia.
Qed.

Lemma quotient_53_bits (m : positive) :
  let n := Zpos (digits2_pos m) - 53 in
  0 <= n -> 2 ^ 52 <= Zpos m / 2 ^ n < 2 ^ 53.
Proof.
  intros n Hn. pose proof (digits2_pos_bounds m) as [Hlo Hhi].
  assert (Hpos : 0 < 2 ^ n) by (apply Z.pow_pos_nonneg; lia).
  replace (Zpos (digits2_pos m) - 1) with (52 + n) in Hlo by (unfold n; lia).
  replace (Zpos (digits2_pos m)) with (53 + n) in Hhi by (unfold n; lia).
  rewrite Z.pow_add_r in Hlo, Hhi by lia.
  split.
  - apply Z.div_le_lower_bound; lia.
  - apply Z.div_lt_upper_bound; lia.
Qed.

(** Rounding is faithful: from a mantissa [mx] of [53 + n] bits the
    result keeps [mx / 2^n] or the next integer, renormalised when that
    is [2^53]. *)
Lemma binary_round_aux_faithful (mx : positive) (ex : Z) (lx : location) :
  let n := Zpos (digits2_pos mx) - 53 in
  let q := Zpos mx / 2 ^ n in
  0 <= n -> -1074 <= ex + n -> ex + n + 1 <= 971 ->
  exists m2 e2,
    binary_round_aux 53 1024 false (Zpos mx) ex lx = S754_finite false m2 e2
    /\ 2 ^ 52 <= Zpos m2 < 2 ^ 53
    /\ ((e2 = ex + n /\ (Zpos m2 = q \/ Zpos m2 = q + 1))
        \/ (e2 = ex + n + 1 /\ Zpos m2 = 2 ^ 52 /\ q + 1 = 2 ^ 53)).
Proof.
  intros n q Hn Hlo Hhi.
  pose proof (shr_fexp_spec mx ex lx Hn Hlo) as [He1 Hm1]. fold n in He1, Hm1.
  pose proof (quotient_53_bits mx Hn) as Hq. fold n in Hq. fold q in Hq, Hm1.
  unfold binary_round_aux.
  destruct (shr_fexp 53 1024 (Zpos mx) ex lx) as [mrs1 e1]. cbn [fst snd] in He1, Hm1.
  subst e1.
  pose proof (round_nearest_even_cases (shr_m mrs1) (loc_of_shr_record mrs1)) as Hr.
  set (m1 := round_nearest_even (shr_m mrs1) (loc_of_shr_record mrs1)) in *.
  clearbody m1. rewrite Hm1 in Hr.
  assert (Hm1pos : 0 < m1) by lia.
  destruct m1 as [|p1|p1] eqn:Ep1; try lia.
  destruct (Z_lt_le_dec (Zpos p1) (2 ^ 53)) as [Hsmall|Hbig].
  - assert (Hd : Zpos (digits2_pos p1) = 53)
      by (apply digits2_pos_unique; change (53 - 1) with 52; lia).
    pose proof (shr_fexp_spec p1 (ex + n) loc_Exact) as Hs.
    rewrite Hd in Hs. cbv zeta in Hs. change (53 - 53) with 0 in Hs.
    destruct Hs as [He2 Hm2]; [lia|lia|].
    destruct (shr_fexp 53 1024 (Zpos p1) (ex + n) loc_Exact) as [mrs2 e2].
    cbn [fst snd] in He2, Hm2. rewrite Z.pow_0_r, Z.div_1_r in Hm2.
    rewrite Hm2. subst e2.
    replace (ex + n + 0 <=? 1024 - 53) with true by (symmetry; apply Z.leb_le; lia).
    exists p1, (ex + n + 0). split; [reflexivity|]. split; [lia|].
    left. split; [lia|]. lia.
  - assert (Hp1 : Zpos p1 = 2 ^ 53) by lia.
    assert (Hd : Zpos (digits2_pos p1) = 54)
      by (apply digits2_pos_unique; rewrite Hp1; change (54 - 1) with 53;
          split; [lia|]; apply Z.pow_lt_mono_r; lia).
    pose proof (shr_fexp_spec p1 (ex + n) loc_Exact) as Hs.
    rewrite Hd in Hs. cbv zeta in Hs. change (54 - 53) with 1 in Hs.
    destruct Hs as [He2 Hm2]; [lia|lia|].
    destruct (shr_fexp 53 1024 (Zpos p1) (ex + n) loc_Exact) as [mrs2 e2].
    cbn [fst snd] in He2, Hm2. rewrite Hp1 in Hm2.
    change (2 ^ 53 / 2 ^ 1) with (Zpos (2 ^ 52)) in Hm2.
    rewrite Hm2. subst e2.
    replace (ex + n + 1 <=? 1024 - 53) with true by (symmetry; apply Z.leb_le; lia).
    exists (2 ^ 52)%positive, (ex + n + 1). split; [reflexivity|].
    split; [change (Zpos (2 ^ 52)) with (2 ^ 52); split; [lia|];
            apply Z.pow_lt_mono_r; lia|].
    right. split; [reflexivity|]. split; [reflexivity|]. lia.
Qed.

Lemma pow2_lt_inv (x y : Z) : 0 <= y -> 2 ^ x < 2 ^ y -> x < y.
Proof.
  intros Hy H. destruct (Z_lt_le_dec x y) as [|Hle]; [assumption|].
  assert (2 ^ y <= 2 ^ x) by (apply Z.pow_le_mono_r; lia). lia.
Qed.

Lemma pos_iter_xO (m d : positive) :
  Zpos (Pos.iter xO m d) = Zpos m * 2 ^ Zpos d.
Proof.
  induction d as [|d IH] using Pos.peano_ind.
  - simpl. lia.
  - rewrite Pos.iter_succ, Pos2Z.inj_succ, Z.pow_succ_r by lia.
    change (Zpos (Pos.iter xO m d)~0) with (2 * Zpos (Pos.iter xO m d)).
    rewrite IH. lia.
Qed.

(** A mantissa of 53 bits with its exact location is kept as it is. *)
Lemma binary_round_aux_exact (m : positive) (e : Z) :
  Zpos (digits2_pos m) = 53 -> -1074 <= e <= 971 ->
  binary_round_aux 53 1024 false (Zpos m) e loc_Exact = S754_finite false m e.
Proof.
  intros Hd He.
  assert (Hs : forall l, shr_fexp 53 1024 (Zpos m) e l
                         = (shr_record_of_loc (Zpos m) l, e)).
  { intros l. unfold shr_fexp, fexp, emin. rewrite Zdigits2_pos, Hd.
    replace (Z.max (53 + e - 53) (3 - 1024 - 53) - e) with 0 by lia.
    reflexivity. }
  unfold binary_round_aux. rewrite Hs. cbn [shr_record_of_loc shr_m loc_of_shr_record
                                            round_nearest_even].
  rewrite Hs. cbn [shr_record_of_loc shr_m].
  replace (e <=? 1024 - 53) with true by (symmetry; apply Z.leb_le; lia).
  reflexivity.
Qed.

(** [float(h)] is exact below [2^53]. *)
Lemma of_int_exact (h : positive) :
  Zpos h < 2 ^ 53 ->
  exists mz tz,
    PyFloat.of_int (Zpos h) = Returns (S754_finite false mz (- tz))
    /\ tz = 53 - Zpos (digits2_pos h) /\ 0 <= tz
    /\ Zpos mz = Zpos h * 2 ^ tz
    /\ 2 ^ 52 <= Zpos mz < 2 ^ 53.
Proof.
  intros Hh. pose proof (digits2_pos_bounds h) as [Hlo Hhi].
  assert (Hd : Zpos (digits2_pos h) <= 53).
  { assert (Zpos (digits2_pos h) - 1 < 53); [|lia].
    apply pow2_lt_inv; lia. }
  unfold PyFloat.of_int, PyFloat.prec, PyFloat.emax, binary_normalize, binary_round.
  unfold shl_align, fexp, emin.
  replace (Z.max (Zpos (digits2_pos h) + 0 - 53) (3 - 1024 - 53) - 0)
    with (Zpos (digits2_pos h) - 53) by lia.
  replace (Z.max (Zpos (digits2_pos h) + 0 - 53) (3 - 1024 - 53))
    with (Zpos (digits2_pos h) - 53) by lia.
  destruct (Zpos (digits2_pos h) - 53) as [|p|p] eqn:Ed; try lia.
  - rewrite binary_round_aux_exact by lia.
    exists h, 0. change (- 0) with 0.
    replace (53 - Zpos (digits2_pos h)) with 0 by lia.
    rewrite Z.pow_0_r, Z.mul_1_r.
    replace (Zpos (digits2_pos h) - 1) with 52 in Hlo by lia.
    repeat split; try lia.
  - assert (Htz : 53 - Zpos (digits2_pos h) = Zpos p) by lia.
    assert (Hmz : 2 ^ 52 <= Zpos (Pos.iter xO h p) < 2 ^ 53).
    { rewrite pos_iter_xO.
      assert (E52 : 2 ^ 52 = 2 ^ (Zpos (digits2_pos h) - 1) * 2 ^ Zpos p)
        by (rewrite <- Z.pow_add_r by lia; f_equal; lia).
      assert (E53 : 2 ^ 53 = 2 ^ Zpos (digits2_pos h) * 2 ^ Zpos p)
        by (rewrite <- Z.pow_add_r by lia; f_equal; lia).
      assert (0 < 2 ^ Zpos p) by (apply Z.pow_pos_nonneg; lia).
      rewrite E52, E53. split.
      - apply Z.mul_le_mono_nonneg_r; lia.
      - apply Z.mul_lt_mono_pos_r; lia. }
    rewrite binary_round_aux_exact.
    + exists (Pos.iter xO h p), (Zpos p). rewrite Htz, pos_iter_xO.
      repeat split; try lia. all: rewrite <- pos_iter_xO; apply Hmz.
    + apply digits2_pos_unique. change (53 - 1) with 52. exact Hmz.
    + lia.
Qed.

(** [a / b] for [0 < a < b < 2^53]: a 53-bit mantissa [M1] and an
    exponent [- t1] with [a/b - 2^-t1 < M1 * 2^-t1 <= a/b + 2^-t1]. *)
Lemma truediv_faithful (a b : positive) :
  Zpos a < Zpos b -> Zpos b < 2 ^ 53 ->
  exists M1 t1,
    PyFloat.truediv (Zpos a) (Zpos b) = Returns (S754_finite false M1 (- t1))
    /\ 51 <= t1 <= 106
    /\ 2 ^ 52 <= Zpos M1 < 2 ^ 53
    /\ Zpos a * 2 ^ t1 - Zpos b < Zpos b * Zpos M1 <= Zpos a * 2 ^ t1 + Zpos b.
Proof.
  intros Hab Hb.
  pose proof (digits2_pos_bounds a) as [Hla Hha].
  pose proof (digits2_pos_bounds b) as [Hlb Hhb].
  set (d1 := Zpos (digits2_pos a)) in *. set (d2 := Zpos (digits2_pos b)) in *.
  assert (Hd1 : 1 <= d1) by (unfold d1; lia).
  assert (Hd12 : d1 <= d2).
  { assert (d1 - 1 < d2); [|lia]. apply pow2_lt_inv; [unfold d2|]; lia. }
  assert (Hd2 : d2 <= 53).
  { assert (d2 - 1 < 53); [|lia]. apply pow2_lt_inv; lia. }
  set (s := 53 + d2 - d1).
  assert (Hs : 53 <= s <= 105) by (unfold s; lia).
  unfold PyFloat.truediv, PyFloat.prec, PyFloat.emax.
  change (Zpos b =? 0) with false. cbv iota. cbn [PyFloat.exact_of_int SFdiv xorb].
  unfold SFdiv_core_binary, fexp, emin. rewrite !Zdigits2_pos. fold d1 d2.
  replace (Z.min (Z.max (d1 + 0 - (d2 + 0) - 53) (3 - 1024 - 53)) (0 - 0))
    with (- s) by (unfold s; lia).
  replace (0 - 0 - - s) with s by lia.
  destruct s as [|ps|ps] eqn:Es; try lia. rewrite <- Es in *.
  rewrite Z.shiftl_mul_pow2 by lia.
  assert (Hpow : 0 < 2 ^ s) by (apply Z.pow_pos_nonneg; lia).
  pose proof (Z.div_mod (Zpos a * 2 ^ s) (Zpos b)) as Hdm.
  pose proof (Z.mod_pos_bound (Zpos a * 2 ^ s) (Zpos b)) as Hmod.
  assert (Hq : Z.div_eucl (Zpos a * 2 ^ s) (Zpos b)
               = ((Zpos a * 2 ^ s) / Zpos b, (Zpos a * 2 ^ s) mod Zpos b)).
  { unfold Z.div, Z.modulo. now destruct (Z.div_eucl _ _). }
  rewrite Hq. clear Hq.
  set (q0 := (Zpos a * 2 ^ s) / Zpos b) in *.
  set (r0 := (Zpos a * 2 ^ s) mod Zpos b) in *.
  specialize (Hdm ltac:(lia)). specialize (Hmod ltac:(lia)).
  (* the quotient has 53 or 54 bits *)
  assert (E52 : 2 ^ 52 * 2 ^ d2 = 2 ^ (d1 - 1) * 2 ^ s)
    by (rewrite <- !Z.pow_add_r by lia; f_equal; unfold s; lia).
  assert (E54 : 2 ^ 54 * 2 ^ (d2 - 1) = 2 ^ d1 * 2 ^ s)
    by (rewrite <- !Z.pow_add_r by lia; f_equal; unfold s; lia).
  assert (Hq0 : 2 ^ 52 <= q0 < 2 ^ 54).
  { assert (H1 : 2 ^ 52 * Zpos b <= Zpos a * 2 ^ s).
    { apply Z.le_trans with (2 ^ 52 * 2 ^ d2).
      - apply Z.mul_le_mono_nonneg_l; lia.
      - rewrite E52. apply Z.mul_le_mono_nonneg_r; lia. }
    assert (H2 : Zpos a * 2 ^ s < 2 ^ 54 * Zpos b).
    { apply Z.lt_le_trans with (2 ^ d1 * 2 ^ s).
      - apply Z.mul_lt_mono_pos_r; lia.
      - rewrite <- E54. apply Z.mul_le_mono_nonneg_l; lia. }
    unfold q0. split.
    - apply Z.div_le_lower_bound; lia.
    - apply Z.div_lt_upper_bound; lia. }
  destruct q0 as [|pq|pq] eqn:Eq0; try lia.
  pose proof (digits2_pos_bounds pq) as [Hlq Hhq].
  set (n1 := Zpos (digits2_pos pq) - 53).
  assert (Hn1 : 0 <= n1 <= 1).
  { unfold n1. split.
    - assert (52 < Zpos (digits2_pos pq)); [|lia]. apply pow2_lt_inv; lia.
    - assert (Zpos (digits2_pos pq) - 1 < 54); [|lia]. apply pow2_lt_inv; lia. }
  destruct (binary_round_aux_faithful pq (- s) (new_location (Zpos b) r0))
    as (M1 & E1 & Hres & HM1 & Hcases); try (fold n1; lia).
  fold n1 in Hcases. rewrite Hres.
  set (q1 := Zpos pq / 2 ^ n1) in *.
  (* the quotient at the precision of the result *)
  assert (Hq1 : Zpos b * q1 <= Zpos a * 2 ^ (s - n1) < Zpos b * q1 + Zpos b).
  { assert (Hn : 0 < 2 ^ n1) by (apply Z.pow_pos_nonneg; lia).
    assert (Hsplit : 2 ^ s = 2 ^ (s - n1) * 2 ^ n1)
      by (rewrite <- Z.pow_add_r by lia; f_equal; lia).
    assert (Hq1' : q1 = (Zpos a * 2 ^ (s - n1)) / Zpos b).
    { unfold q1. rewrite <- Eq0. unfold q0.
      rewrite Zdiv.Zdiv_Zdiv by lia.
      rewrite Hsplit, Z.mul_assoc, Z.div_mul_cancel_r by lia. reflexivity. }
    pose proof (Z.div_mod (Zpos a * 2 ^ (s - n1)) (Zpos b) ltac:(lia)) as Hdm1.
    pose proof (Z.mod_pos_bound (Zpos a * 2 ^ (s - n1)) (Zpos b) ltac:(lia)) as Hmod1.
    rewrite <- Hq1' in Hdm1. lia. }
  destruct Hcases as [[HE [HM|HM]]|(HE & HM & Hcarry)].
  - exists M1, (s - n1). replace (- (s - n1)) with E1 by lia.
    repeat split; try lia.
  - exists M1, (s - n1). replace (- (s - n1)) with E1 by lia.
    repeat split; try lia.
  - exists M1, (s - n1 - 1). replace (- (s - n1 - 1)) with E1 by lia.
    assert (Hhalf : 2 ^ (s - n1) = 2 * 2 ^ (s - n1 - 1)).
    { replace (s - n1) with (Z.succ (s - n1 - 1)) at 1 by lia.
      apply Z.pow_succ_r. lia. }
    assert (H53 : 2 ^ 53 = 2 * 2 ^ 52) by reflexivity.
    repeat split; try lia.
Qed.
(** The error analysis over the integers: [M1 / T1] is the rounded
    quotient of [a] by [b], [M2 / T2] the rounded product of it by [h],
    [N] the unit in the last place of that product before rounding. *)
Lemma scaled_floor_bounds (a b h M1 M2 T1 Tz T2 N : Z) :
  0 < a < b -> 0 < h -> b * h <= 2 ^ 50 ->
  2 ^ 52 <= M1 < 2 ^ 53 -> 2 ^ 52 <= M2 < 2 ^ 53 ->
  0 < T1 -> 0 < Tz -> 0 < T2 -> 0 < N ->
  a * T1 - b < b * M1 <= a * T1 + b ->
  (M2 - 1) * N <= M1 * (h * Tz) < (M2 + 1) * N ->
  T1 * Tz = T2 * N ->
  a * h / b - 1 <= M2 / T2 <= a * h / b.
Proof.
  intros Hab Hh Hbh HM1 HM2 HT1 HTz HT2 HN Hdiv Hmul Hexp.
  change (2 ^ 50) with 1125899906842624 in *.
  change (2 ^ 52) with 4503599627370496 in *.
  change (2 ^ 53) with 9007199254740992 in *.
  set (F := a * h / b).
  assert (HF : b * F <= a * h < b * F + b).
  { pose proof (Z.div_mod (a * h) b ltac:(lia)) as Hdm.
    pose proof (Z.mod_pos_bound (a * h) b ltac:(lia)) as Hmod.
    fold F in Hdm. lia. }
  set (X := T1 * Tz) in *. set (Y := h * Tz) in *.
  assert (HX : 0 < X) by (apply Z.mul_pos_pos; lia).
  assert (HY : 0 < Y) by (apply Z.mul_pos_pos; lia).
  (* the scale of the quotient exceeds its mantissa *)
  assert (HT1big : M1 <= T1).
  { assert (H1 : a * T1 < b * T1) by (apply Z.mul_lt_mono_pos_r; lia).
    assert (H2 : b * (M1 - 1) < b * T1) by lia.
    apply Z.mul_lt_mono_pos_l in H2; lia. }
  (* the last place of the product, against the product *)
  assert (HNsmall : N < 3 * Y).
  { assert (H1 : 4503599627370495 * N <= (M2 - 1) * N)
      by (apply Z.mul_le_mono_nonneg_r; lia).
    assert (H2 : M1 * Y < 9007199254740992 * Y)
      by (apply Z.mul_lt_mono_pos_r; lia).
    lia. }
  assert (HK : b * (N + Y) < X).
  { assert (H1 : b * (N + Y) < b * (4 * Y)) by (apply Z.mul_lt_mono_pos_l; lia).
    assert (H2 : b * (4 * Y) = 4 * (b * h) * Tz) by (unfold Y; ring).
    assert (H3 : 4 * (b * h) * Tz <= 4 * 1125899906842624 * Tz)
      by (apply Z.mul_le_mono_nonneg_r; lia).
    assert (H4 : 4503599627370496 * Tz <= X)
      by (unfold X; apply Z.mul_le_mono_nonneg_r; lia).
    lia. }
  assert (HbY : b * Y <= b * (N + Y)) by (apply Z.mul_le_mono_nonneg_l; lia).
  assert (HbX : 1 * X <= b * X) by (apply Z.mul_le_mono_nonneg_r; lia).
  assert (HFX : b * F * X <= a * h * X) by (apply Z.mul_le_mono_nonneg_r; lia).
  assert (HFX' : a * h * X <= (b * F + b - 1) * X)
    by (apply Z.mul_le_mono_nonneg_r; lia).
  split.
  - assert (Hlow : T2 * (F - 1) <= M2).
    { destruct (Z_le_gt_dec (T2 * (F - 1)) M2) as [|Hc]; [assumption|exfalso].
      assert (H1 : (M2 + 1) * N <= T2 * (F - 1) * N)
        by (apply Z.mul_le_mono_nonneg_r; lia).
      assert (H2 : T2 * (F - 1) * N = (F - 1) * X)
        by (rewrite Hexp; ring).
      assert (H3 : b * (M1 * Y) < b * ((F - 1) * X))
        by (apply Z.mul_lt_mono_pos_l; lia).
      assert (H4 : (a * T1 - b) * Y < b * M1 * Y)
        by (apply Z.mul_lt_mono_pos_r; lia).
      assert (H6 : (a * T1 - b) * Y = a * h * X - b * Y) by (unfold X, Y; ring).
      assert (H7 : b * ((F - 1) * X) = b * F * X - b * X) by ring.
      assert (H8 : b * M1 * Y = b * (M1 * Y)) by ring.
      lia. }
    apply Z.div_le_lower_bound; lia.
  - assert (Hup : M2 < T2 * (F + 1)).
    { destruct (Z_lt_le_dec M2 (T2 * (F + 1))) as [|Hc]; [assumption|exfalso].
      assert (H1 : (T2 * (F + 1) - 1) * N <= (M2 - 1) * N)
        by (apply Z.mul_le_mono_nonneg_r; lia).
      assert (H2 : (T2 * (F + 1) - 1) * N = (F + 1) * X - N)
        by (rewrite Hexp; ring).
      assert (H3 : b * ((F + 1) * X - N) <= b * (M1 * Y))
        by (apply Z.mul_le_mono_nonneg_l; lia).
      assert (H4 : b * M1 * Y <= (a * T1 + b) * Y)
        by (apply Z.mul_le_mono_nonneg_r; lia).
      assert (H6 : (a * T1 + b) * Y = a * h * X + b * Y) by (unfold X, Y; ring).
      assert (H7 : b * ((F + 1) * X - N) = (b * F + b) * X - b * N) by ring.
      assert (H8 : b * M1 * Y = b * (M1 * Y)) by ring.
      assert (H9 : (b * F + b - 1) * X = (b * F + b) * X - X) by ring.
      assert (H10 : b * (N + Y) = b * N + b * Y) by ring.
      lia. }
    assert (M2 / T2 < F + 1) by (apply Z.div_lt_upper_bound; lia). lia.
Qed.

(** The product of two 53-bit mantissas, rounded: a 53-bit mantissa
    [M2] within one unit in the last place [2^k] of the product. *)
Lemma mul_faithful (M1 mz : positive) (t1 tz : Z) :
  2 ^ 52 <= Zpos M1 < 2 ^ 53 -> 2 ^ 52 <= Zpos mz < 2 ^ 53 ->
  0 <= t1 <= 106 -> 0 <= tz <= 53 ->
  exists M2 E2 k,
    SFmul 53 1024 (S754_finite false M1 (- t1)) (S754_finite false mz (- tz))
    = S754_finite false M2 E2
    /\ 2 ^ 52 <= Zpos M2 < 2 ^ 53
    /\ 52 <= k <= 54
    /\ E2 = - t1 - tz + k
    /\ (Zpos M2 - 1) * 2 ^ k <= Zpos M1 * Zpos mz < (Zpos M2 + 1) * 2 ^ k.
Proof.
  intros HM1 Hmz Ht1 Htz.
  cbn [SFmul xorb].
  set (P := (M1 * mz)%positive).
  assert (HP : Zpos P = Zpos M1 * Zpos mz) by reflexivity.
  assert (HPb : 2 ^ 104 <= Zpos P < 2 ^ 106).
  { rewrite HP. change (2 ^ 104) with (2 ^ 52 * 2 ^ 52).
    change (2 ^ 106) with (2 ^ 53 * 2 ^ 53). split.
    - apply Z.mul_le_mono_nonneg; lia.
    - apply Z.mul_lt_mono_nonneg; lia. }
  pose proof (digits2_pos_bounds P) as [Hlo Hhi].
  set (n2 := Zpos (digits2_pos P) - 53).
  assert (Hn2 : 52 <= n2 <= 53).
  { unfold n2. split.
    - assert (104 < Zpos (digits2_pos P)); [|lia]. apply pow2_lt_inv; lia.
    - assert (Zpos (digits2_pos P) - 1 < 106); [|lia]. apply pow2_lt_inv; lia. }
  destruct (binary_round_aux_faithful P (- t1 + - tz) loc_Exact)
    as (M2 & E2 & Hres & HM2 & Hcases); try (fold n2; lia).
  fold n2 in Hcases. rewrite Hres.
  set (q2 := Zpos P / 2 ^ n2) in *.
  assert (Hn : 0 < 2 ^ n2) by (apply Z.pow_pos_nonneg; lia).
  assert (Hq2 : q2 * 2 ^ n2 <= Zpos P < (q2 + 1) * 2 ^ n2).
  { pose proof (Z.div_mod (Zpos P) (2 ^ n2) ltac:(lia)) as Hdm.
    pose proof (Z.mod_pos_bound (Zpos P) (2 ^ n2) Hn) as Hmod.
    fold q2 in Hdm. lia. }
  rewrite <- HP.
  destruct Hcases as [[HE [HM|HM]]|(HE & HM & Hcarry)].
  - exists M2, E2, n2. repeat split; try lia.
  - exists M2, E2, n2. repeat split; try lia.
  - exists M2, E2, (n2 + 1).
    assert (Hdouble : 2 ^ (n2 + 1) = 2 * 2 ^ n2) by (apply Z.pow_succ_r; lia).
    assert (H53 : 2 ^ 53 = 2 * 2 ^ 52) by reflexivity.
    repeat split; try lia.
Qed.


(** ** C2: the size of a resized image *)





(** * Further properties *)

(** ** Names, stems and extensions *)

Lemma rfind_from_absent (c : ascii) (s : string) (i last : Z) :
  PyStr.char_in c s = false -> PyStr.rfind_from c s i last = last.
Proof.
  revert i last; induction s as [|x s IH]; intros i last; [reflexivity|].
  unfold PyStr.char_in. cbn [list_ascii_of_string existsb PyStr.rfind_from].
  intros H. apply orb_false_elim in H as [Hx Hs].
  rewrite Ascii.eqb_sym, Hx. now apply IH.
Qed.

Lemma rfind_from_last (c : ascii) (a e : string) (i last : Z) :
  PyStr.char_in c e = false ->
  PyStr.rfind_from c (a ++ String c e) i last = i + PyStr.len a.
Proof.
  intros He. revert i last; induction a as [|x a IH]; intros i last.
  - cbn [String.append PyStr.rfind_from]. rewrite Ascii.eqb_refl.
    rewrite rfind_from_absent by assumption. unfold PyStr.len. simpl. lia.
  - cbn [String.append PyStr.rfind_from]. rewrite IH.
    unfold PyStr.len. cbn [String.length]. lia.
Qed.

Lemma take_append (a b : string) : PyStr.take (String.length a) (a ++ b) = a.
Proof. induction a as [|x a IH]; simpl; [now destruct b | now rewrite IH]. Qed.

Lemma drop_append (a b : string) : PyStr.drop (String.length a) (a ++ b) = b.
Proof. induction a as [|x a IH]; simpl; [now destruct b | exact IH]. Qed.

(** The stem and the suffix of a name made of a non-empty stem and a
    proper extension are that stem and that extension. *)
Lemma stem_suffix_of_name (p : Path) (S ext : string) :
  name p = (S ++ ext)%string -> S <> "" -> proper_extension ext ->
  stem p = S /\ suffix p = ext.
Proof.
  intros Hname HS (e & -> & He & Hdot).
  assert (Hi : PyStr.rfind "." (name p) = PyStr.len S)
    by (rewrite Hname; unfold PyStr.rfind; rewrite rfind_from_last by assumption;
        lia).
  assert (Hlen : PyStr.len (name p) = PyStr.len S + 1 + PyStr.len e).
  { rewrite Hname. unfold PyStr.len. rewrite append_length. cbn [String.length]. lia. }
  assert (HSpos : 0 < PyStr.len S) by (unfold PyStr.len; destruct S; simpl; [easy|lia]).
  assert (Hepos : 0 < PyStr.len e) by (unfold PyStr.len; destruct e; simpl; [easy|lia]).
  unfold stem, suffix. rewrite Hi, Hlen.
  replace ((0 <? PyStr.len S) && (PyStr.len S <? PyStr.len S + 1 + PyStr.len e - 1))
    with true by (symmetry; apply andb_true_iff; split; apply Z.ltb_lt; lia).
  unfold PyStr.len. rewrite Nat2Z.id, Hname. split.
  - apply take_append.
  - apply drop_append.
Qed.

Lemma str_in_In (x : string) (xs : list string) : str_in x xs = true <-> In x xs.
Proof.
  unfold str_in. rewrite existsb_exists. split.
  - intros (y & Hy & E). apply String.eqb_eq in E. now subst.
  - intros H. exists x. split; [assumption | apply String.eqb_refl].
Qed.

Lemma lower_ascii_dot (c : ascii) : PyStr.lower_ascii c = "."%char <-> c = "."%char.
Proof.
  split; [|now intros ->].
  destruct c as [[] [] [] [] [] [] [] []]; vm_compute; intros H;
    first [reflexivity | discriminate H].
Qed.

Lemma char_in_dot_lower (s : string) :
  PyStr.char_in "." (PyStr.lower s) = PyStr.char_in "." s.
Proof.
  unfold PyStr.char_in. induction s as [|c s IH]; [reflexivity|].
  cbn [PyStr.lower list_ascii_of_string existsb]. rewrite IH. f_equal.
  destruct (Ascii.eqb "." c) eqn:E.
  - apply Ascii.eqb_eq in E. subst c. reflexivity.
  - apply Ascii.eqb_neq. intros H. symmetry in H.
    apply (proj1 (lower_ascii_dot c)) in H.
    apply Ascii.eqb_neq in E. apply E. now symmetry.
Qed.

Lemma lower_empty (s : string) : PyStr.lower s = "" -> s = "".
Proof. now destruct s. Qed.

(** The extensions of the allow-list are proper, in any letter case. *)
Lemma listed_extension_proper (ext : string) :
  In (PyStr.lower ext) IMAGE_EXTENSIONS -> proper_extension ext.
Proof.
  intros Hin.
  assert (H : exists e', PyStr.lower ext = String "." e' /\ e' <> ""
                         /\ PyStr.char_in "." e' = false).
  { unfold IMAGE_EXTENSIONS in Hin. simpl in Hin.
    repeat (destruct Hin as [<-|Hin];
            [eexists; split; [reflexivity|]; split; [discriminate|reflexivity]|]).
    contradiction. }
  destruct H as (e' & Hlow & Hne & Hdot).
  destruct ext as [|c e]; [discriminate|].
  cbn [PyStr.lower] in Hlow. inversion Hlow as [[Hc He]].
  apply (proj1 (lower_ascii_dot c)) in Hc. subst c.
  exists e. split; [reflexivity|]. split.
  - intros ->. apply Hne. now rewrite <- He.
  - rewrite <- char_in_dot_lower, He. exact Hdot.
Qed.

Lemma stem_not_empty (p : Path) : name p <> "" -> stem p <> "".
Proof.
  unfold stem. intros Hname.
  destruct ((0 <? PyStr.rfind "." (name p))
            && (PyStr.rfind "." (name p) <? PyStr.len (name p) - 1)) eqn:E;
    [|assumption].
  apply andb_true_iff in E as [Hi _]. apply Z.ltb_lt in Hi.
  destruct (name p) as [|c s]; [congruence|].
  destruct (Z.to_nat (PyStr.rfind "." (String c s))) eqn:En; [lia|].
  discriminate.
Qed.

(** X1.  A path is taken as an image exactly when its name is a
    non-empty stem followed by an extension of the allow-list, in any
    letter case: [photo.JPG] is, [.png] and [png] are not. *)
Theorem supported_iff (p : Path) :
  supported p = true
  <-> exists S ext, name p = (S ++ ext)%string /\ S <> ""
                    /\ In (PyStr.lower ext) IMAGE_EXTENSIONS.
Proof.
  unfold supported. rewrite str_in_In. split.
  - intros Hin. exists (stem p), (suffix p).
    split; [symmetry; apply stem_suffix|]. split; [|exact Hin].
    apply stem_not_empty. intros Hname.
    assert (Hs : suffix p = "").
    { pose proof (stem_suffix p) as H. rewrite Hname in H.
      destruct (stem p); [exact H | discriminate]. }
    rewrite Hs in Hin. simpl in Hin.
    repeat (destruct Hin as [Hin|Hin]; [discriminate|]). contradiction.
  - intros (S & ext & Hname & HS & Hin).
    destruct (stem_suffix_of_name p S ext Hname HS (listed_extension_proper _ Hin))
      as [_ ->].
    exact Hin.
Qed.


(** ** Collection *)

Section CollectionFacts.

Context {World Image : Type} {platform : Platform World Image}.

(** One input string, seen from an empty list of candidates. *)
Lemma collect_one_accumulates (p_str : string) (target_files : list Path)
      (st : State World) :
  collect_one p_str target_files st
  = match collect_one p_str [] st with
    | (st', Ok added) => (st', Ok (target_files ++ added))
    | (st', Exn e) => (st', Exn e)
    | (st', OutOfFuel) => (st', OutOfFuel)
    end.
Proof.
  unfold collect_one.
  destruct (String.eqb _ ""); [unfold ret; now rewrite app_nil_r|].
  rewrite !collect_path_unfold. cbv zeta.
  destruct (path_is_dir _ _).
  - now destruct (path_iterdir _ _).
  - destruct (path_is_file _ _).
    + destruct (supported _); [reflexivity | now rewrite app_nil_r].
    + now rewrite app_nil_r.
Qed.

Lemma collect_accumulates (path_strings : list string) (target_files : list Path)
      (st : State World) :
  collect path_strings target_files st
  = match collect path_strings [] st with
    | (st', Ok added) => (st', Ok (target_files ++ added))
    | (st', Exn e) => (st', Exn e)
    | (st', OutOfFuel) => (st', OutOfFuel)
    end.
Proof.
  revert target_files st; induction path_strings as [|p_str rest IH];
    intros target_files st.
  - cbn. unfold ret. now rewrite app_nil_r.
  - cbn [collect]. unfold bind.
    rewrite (collect_one_accumulates p_str target_files).
    destruct (collect_one p_str [] st) as [st1 [added|e|]]; try reflexivity.
    rewrite (IH (target_files ++ added)), (IH added).
    destruct (collect rest [] st1) as [st2 [more|e|]]; try reflexivity.
    now rewrite app_assoc.
Qed.

Lemma collect_app_bind (ps1 ps2 : list string) (target_files : list Path)
      (st : State World) :
  collect (ps1 ++ ps2) target_files st
  = bind (collect ps1 target_files) (collect ps2) st.
Proof.
  revert target_files st; induction ps1 as [|p_str ps1 IH]; intros target_files st.
  - reflexivity.
  - cbn [collect app]. unfold bind in *.
    destruct (collect_one p_str target_files st) as [st1 [tf1|e|]]; try reflexivity.
    now rewrite IH.
Qed.

(** What one input string does to the state. *)
Lemma collect_one_effects (p_str : string) (target_files : list Path)
      (st st' : State World) (o : outcome (list Path)) :
  collect_one p_str target_files st = (st', o) ->
  world st' = world st
  /\ (exists msgs, stdout st' = stdout st ++ msgs
                   /\ Forall is_ignored msgs /\ (List.length msgs <= 1)%nat)
  /\ o <> OutOfFuel.
Proof.
  unfold collect_one.
  destruct (String.eqb _ "").
  - unfold ret. intros H; inversion H; subst. split; [reflexivity|]. split.
    + exists []. rewrite app_nil_r. repeat split; [constructor | simpl; lia].
    + discriminate.
  - rewrite collect_path_unfold. cbv zeta.
    destruct (path_is_dir _ _).
    + destruct (path_iterdir _ _); intros H; inversion H; subst;
        (split; [reflexivity|]; split; [|discriminate]);
        exists []; rewrite app_nil_r; repeat split; try constructor; simpl; lia.
    + destruct (path_is_file _ _); intros H; inversion H; subst;
        (split; [reflexivity|]; split; [|discriminate]).
      * exists []. rewrite app_nil_r. repeat split; [constructor | simpl; lia].
      * eexists [_]. cbn [stdout]. repeat split; [|simpl; lia].
        constructor; [exact I | constructor].
Qed.

End CollectionFacts.

Section CollectionTheorems.

Context {World Image : Type} {platform : Platform World Image}.

Lemma collect_effects (path_strings : list string) (target_files : list Path)
      (st st' : State World) (o : outcome (list Path)) :
  collect path_strings target_files st = (st', o) ->
  world st' = world st
  /\ (exists msgs, stdout st' = stdout st ++ msgs
                   /\ Forall is_ignored msgs
                   /\ (List.length msgs <= List.length path_strings)%nat)
  /\ o <> OutOfFuel.
Proof.
  revert target_files st; induction path_strings as [|p_str rest IH];
    intros target_files st.
  - cbn. unfold ret. intros H; inversion H; subst.
    split; [reflexivity|]. split; [|discriminate].
    exists []. rewrite app_nil_r. repeat split; [constructor | simpl; lia].
  - cbn [collect]. unfold bind.
    destruct (collect_one p_str target_files st) as [st1 o1] eqn:E1.
    apply collect_one_effects in E1 as (Hw1 & (m1 & Hout1 & Hall1 & Hlen1) & Hfuel1).
    destruct o1 as [tf1|e|]; [| |contradiction].
    + intros H. apply IH in H as (Hw & (m2 & Hout2 & Hall2 & Hlen2) & Hfuel).
      split; [congruence|]. split; [|exact Hfuel].
      exists (m1 ++ m2). rewrite Hout2, Hout1, <- app_assoc.
      repeat split; [now apply Forall_app | rewrite length_app; simpl; lia].
    + intros H; inversion H; subst. split; [exact Hw1|]. split; [|discriminate].
      exists m1. repeat split; try assumption. simpl. lia.
Qed.

End CollectionTheorems.

(** X2.  Collection only reads: whatever the inputs, the file system
    is left as it was, the only messages printed are "ignored" lines,
    at most one per input, the candidates found so far are kept in front
    of the new ones, and collection never waits on the resolver. *)
Theorem collect_read_only
  {World Image : Type} {platform : Platform World Image}
  (path_strings : list string) (target_files : list Path)
  (st st' : State World) (o : outcome (list Path)) :
  collect path_strings target_files st = (st', o) ->
  world st' = world st
  /\ (exists msgs, stdout st' = stdout st ++ msgs
                   /\ Forall is_ignored msgs
                   /\ (List.length msgs <= List.length path_strings)%nat)
  /\ o <> OutOfFuel
  /\ (forall found, o = Ok found -> exists added, found = target_files ++ added).
Proof.
  intros H. pose proof (collect_effects _ _ _ _ _ H) as (Hw & Hmsgs & Hfuel).
  repeat split; try assumption.
  intros found ->. rewrite collect_accumulates in H.
  destruct (collect path_strings [] st) as [st1 [added|e|]]; inversion H.
  now exists added.
Qed.

(** X2 on the album: a directory, then a path that does not exist. *)
Lemma collect_read_only_witness :
  world (fst (collect ["photos"; "'nowhere'"] [photos] (mkState album []))) = album
  /\ stdout (fst (collect ["photos"; "'nowhere'"] [photos] (mkState album [])))
     = [MsgIgnored "nowhere"].
Proof.
  destruct (collect ["photos"; "'nowhere'"] [photos] (mkState album []))
    as [st' o] eqn:E.
  pose proof (collect_read_only _ _ _ _ _ E) as (Hw & _).
  split; [exact Hw|].
  vm_compute in E. inversion E. reflexivity.
Defined.

(** X3.  The candidates of a list of inputs are those of its first part
    followed by those of its second part, found in the state the first
    part left; nothing is sorted or removed, so an input given twice
    is a candidate twice. *)
Theorem collect_app
  {World Image : Type} {platform : Platform World Image}
  (ps1 ps2 : list string) (st st1 st2 : State World) (r1 r2 : list Path) :
  collect ps1 [] st = (st1, Ok r1) ->
  collect ps2 [] st1 = (st2, Ok r2) ->
  forall target_files,
    collect (ps1 ++ ps2) target_files st = (st2, Ok (target_files ++ r1 ++ r2)).
Proof.
  intros H1 H2 target_files.
  rewrite collect_app_bind. unfold bind.
  rewrite collect_accumulates, H1, collect_accumulates, H2.
  now rewrite app_assoc.
Qed.

(** X3 on the album: the same file given twice. *)
Lemma collect_app_witness :
  collect (["photos/wide.png"] ++ ["photos/wide.png"]) [] (mkState album [])
  = (mkState album [],
     Ok ([] ++ [of_string "photos/wide.png"] ++ [of_string "photos/wide.png"])).
Proof.
  apply (collect_app ["photos/wide.png"] ["photos/wide.png"]
           (mkState album []) (mkState album []) (mkState album [])
           [of_string "photos/wide.png"] [of_string "photos/wide.png"]);
    reflexivity.
Defined.

(** X4.  When collection finds no candidate, [process_images] prints
    its "nothing to process" line and returns: no folder is made and
    the file system is as it was.  So it is for an empty list of
    inputs. *)
Theorem empty_batch_untouched
  {World Image : Type} {platform : Platform World Image}
  (fuel : nat) (path_strings : list string) (max_width : Z) (mode_type : string)
  (st st1 : State World) :
  collect path_strings [] (mkState (world st) (stdout st ++ [MsgAnalyzing]))
  = (st1, Ok []) ->
  process_images fuel path_strings max_width mode_type st
  = (mkState (world st) (stdout st1 ++ [MsgNoImages]), Ok tt)
  /\ (exists msgs, Forall is_ignored msgs
                   /\ stdout st1 ++ [MsgNoImages]
                      = stdout st ++ [MsgAnalyzing] ++ msgs ++ [MsgNoImages])
  /\ process_images fuel [] max_width mode_type st
     = (mkState (world st) (stdout st ++ [MsgAnalyzing; MsgNoImages]), Ok tt).
Proof.
  intros H. pose proof (collect_effects _ _ _ _ _ H) as (Hw & (msgs & Hout & Hall & _) & _).
  cbn [world stdout] in Hw, Hout.
  split; [|split].
  - unfold process_images, bind, print. cbn [world stdout]. rewrite H.
    cbn [world stdout]. now rewrite Hw.
  - exists msgs. split; [exact Hall|]. rewrite Hout, <- !app_assoc. reflexivity.
  - unfold process_images, bind, print. cbn. now rewrite <- app_assoc.
Qed.

(** X4 on the album: a text file and a path that does not exist. *)
Lemma empty_batch_untouched_witness :
  process_images 0 ["photos/notes.txt"; "nowhere"] 1200 "jpeg" (mkState album [])
  = (mkState album [MsgAnalyzing; MsgIgnored "nowhere"; MsgNoImages], Ok tt).
Proof.
  apply (empty_batch_untouched 0 ["photos/notes.txt"; "nowhere"] 1200 "jpeg"
           (mkState album []) (mkState album [MsgAnalyzing; MsgIgnored "nowhere"])).
  reflexivity.
Defined.

(** ** Quotes within quotes *)

Lemma string_app_assoc (a b c : string) :
  ((a ++ b) ++ c)%string = (a ++ b ++ c)%string.
Proof. induction a as [|x a IH]; simpl; [reflexivity|now rewrite IH]. Qed.

Lemma string_app_nil_r (a : string) : (a ++ "")%string = a.
Proof. induction a as [|x a IH]; simpl; [reflexivity|now rewrite IH]. Qed.

Lemma all_in_cons (chars : string) (c : ascii) (s : string) :
  all_in chars (String c s) = true
  <-> PyStr.char_in c chars = true /\ all_in chars s = true.
Proof. unfold all_in. simpl. apply andb_true_iff. Qed.

Lemma lstrip_all (chars l : string) :
  all_in chars l = true -> PyStr.lstrip chars l = "".
Proof.
  induction l as [|c l IH]; [reflexivity|].
  intros H. apply all_in_cons in H as [Hc Hl]. simpl. now rewrite Hc, IH.
Qed.

Lemma lstrip_app_all (chars l s : string) :
  all_in chars l = true -> PyStr.lstrip chars (l ++ s) = PyStr.lstrip chars s.
Proof.
  induction l as [|c l IH]; [reflexivity|].
  intros H. apply all_in_cons in H as [Hc Hl]. simpl. now rewrite Hc, IH.
Qed.

Lemma rstrip_all (chars r : string) :
  all_in chars r = true -> PyStr.rstrip chars r = "".
Proof.
  induction r as [|c r IH]; [reflexivity|].
  intros H. apply all_in_cons in H as [Hc Hr]. simpl. now rewrite IH, Hc.
Qed.

Lemma rstrip_app_all (chars s r : string) :
  all_in chars r = true -> PyStr.rstrip chars (s ++ r) = PyStr.rstrip chars s.
Proof.
  intros Hr. induction s as [|c s IH].
  - simpl. now apply rstrip_all.
  - simpl. now rewrite IH.
Qed.

(** What is between the stripped characters comes out as it is. *)
Lemma strip_wrapped (chars l x r : string) :
  all_in chars l = true -> all_in chars r = true ->
  starts_in chars x = false -> ends_in chars x = false ->
  PyStr.strip chars (l ++ x ++ r) = x.
Proof.
  intros Hl Hr Hs He. unfold PyStr.strip. rewrite (lstrip_app_all _ _ _ Hl).
  destruct x as [|c x].
  - simpl. now rewrite (lstrip_all _ _ Hr).
  - rewrite lstrip_id.
    + rewrite (rstrip_app_all _ _ _ Hr). now apply rstrip_id.
    + exact Hs.
Qed.

Lemma starts_in_app (chars a b : string) :
  starts_in chars (a ++ b)
  = match a with EmptyString => starts_in chars b | _ => starts_in chars a end.
Proof. now destruct a. Qed.

Lemma ends_in_app (chars a b : string) :
  ends_in chars (a ++ b)
  = match b with EmptyString => ends_in chars a | _ => ends_in chars b end.
Proof.
  induction a as [|c a IH].
  - simpl. now destruct b.
  - change (String c a ++ b)%string with (String c (a ++ b)%string).
    cbn [ends_in]. destruct (a ++ b)%string as [|c' t] eqn:E.
    + destruct a; [|discriminate]. simpl in E. subst b. reflexivity.
    + rewrite IH. destruct b as [|cb b]; [|reflexivity].
      rewrite string_app_nil_r in E. subst a. reflexivity.
Qed.

Lemma all_in_ends (chars other l : string) :
  (forall c, PyStr.char_in c other = true -> PyStr.char_in c chars = false) ->
  all_in other l = true ->
  starts_in chars l = false /\ ends_in chars l = false.
Proof.
  intros Hdis. induction l as [|c l IH]; [auto|].
  intros H. apply all_in_cons in H as [Hc Hl]. split.
  - simpl. now apply Hdis.
  - cbn [ends_in]. destruct l as [|c' l]; [now apply Hdis|].
    now apply IH.
Qed.

Lemma wrapped_ends (chars other l x r : string) :
  (forall c, PyStr.char_in c other = true -> PyStr.char_in c chars = false) ->
  all_in other l = true -> all_in other r = true ->
  starts_in chars x = false -> ends_in chars x = false ->
  starts_in chars (l ++ x ++ r) = false /\ ends_in chars (l ++ x ++ r) = false.
Proof.
  intros Hdis Hl Hr Hs He.
  destruct (all_in_ends chars other l Hdis Hl) as [Hls Hle].
  destruct (all_in_ends chars other r Hdis Hr) as [Hrs Hre].
  split.
  - rewrite starts_in_app. destruct l; [|exact Hls].
    rewrite starts_in_app. now destruct x.
  - rewrite ends_in_app. destruct (x ++ r)%string eqn:E.
    + exact Hle.
    + rewrite <- E, ends_in_app. now destruct r.
Qed.

Lemma quote_kinds_split (s : string) :
  (starts_in (dquote ++ "'") s = false ->
   starts_in dquote s = false /\ starts_in "'" s = false)
  /\ (ends_in (dquote ++ "'") s = false ->
      ends_in dquote s = false /\ ends_in "'" s = false).
Proof.
  split.
  - destruct s as [|c s]; simpl; [auto|].
    unfold PyStr.char_in; simpl. rewrite orb_false_r.
    intros H. apply orb_false_elim in H as [H1 H2]. now rewrite H1, H2.
  - induction s as [|c s IH]; [auto|].
    cbn [ends_in]. destruct s as [|c' s]; [|exact IH].
    unfold PyStr.char_in; simpl. rewrite orb_false_r.
    intros H. apply orb_false_elim in H as [H1 H2]. now rewrite H1, H2.
Qed.

Lemma single_not_double (c : ascii) :
  PyStr.char_in c "'" = true -> PyStr.char_in c dquote = false.
Proof.
  unfold PyStr.char_in. simpl. rewrite !orb_false_r.
  intros H. apply Ascii.eqb_eq in H. now subst c.
Qed.

Lemma double_not_single (c : ascii) :
  PyStr.char_in c dquote = true -> PyStr.char_in c "'" = false.
Proof.
  unfold PyStr.char_in. simpl. rewrite !orb_false_r.
  intros H. apply Ascii.eqb_eq in H. now subst c.
Qed.

(** X5.  The two kinds of quotes are removed in a fixed order, double
    quotes first.  So a path wrapped in single quotes and then in
    double quotes is read as the bare path, whereas a path wrapped in
    double quotes and then in single quotes keeps its double quotes
    and is looked up with them. *)
Theorem nested_quotes
  {World Image : Type} {platform : Platform World Image}
  (s l1 r1 l2 r2 : string) (target_files : list Path) (st : State World) :
  starts_in (dquote ++ "'") s = false ->
  ends_in (dquote ++ "'") s = false ->
  all_in dquote l1 = true -> all_in dquote r1 = true ->
  all_in "'" l2 = true -> all_in "'" r2 = true ->
  collect_one (l1 ++ l2 ++ s ++ r2 ++ r1) target_files st
  = collect_one s target_files st
  /\ (l2 <> "" -> r2 <> "" -> s <> "" ->
      collect_one (l2 ++ l1 ++ s ++ r1 ++ r2) target_files st
      = collect_path (l1 ++ s ++ r1) target_files st).
Proof.
  intros Hs He Hl1 Hr1 Hl2 Hr2.
  destruct (proj1 (quote_kinds_split s) Hs) as [Hsd Hss].
  destruct (proj2 (quote_kinds_split s) He) as [Hed Hes].
  split.
  - unfold collect_one.
    destruct (wrapped_ends dquote "'" l2 s r2 single_not_double Hl2 Hr2 Hsd Hed)
      as [Hws Hwe].
    replace (l1 ++ l2 ++ s ++ r2 ++ r1)%string
      with (l1 ++ (l2 ++ s ++ r2) ++ r1)%string
      by now rewrite !string_app_assoc.
    rewrite (strip_wrapped dquote l1 _ r1 Hl1 Hr1 Hws Hwe).
    rewrite (strip_wrapped "'" l2 s r2 Hl2 Hr2 Hss Hes).
    rewrite (strip_id dquote s Hsd Hed), (strip_id "'" s Hss Hes).
    reflexivity.
  - intros Hl2n Hr2n Hsn. unfold collect_one.
    destruct (all_in_ends dquote "'" l2 single_not_double Hl2) as [Hl2s _].
    destruct (all_in_ends dquote "'" r2 single_not_double Hr2) as [_ Hr2e].
    destruct (wrapped_ends "'" dquote l1 s r1 double_not_single Hl1 Hr1 Hss Hes)
      as [Hws Hwe].
    replace (l2 ++ l1 ++ s ++ r1 ++ r2)%string
      with (l2 ++ (l1 ++ s ++ r1) ++ r2)%string
      by now rewrite !string_app_assoc.
    rewrite (strip_id dquote).
    + rewrite (strip_wrapped "'" l2 _ r2 Hl2 Hr2 Hws Hwe).
      destruct (String.eqb (l1 ++ s ++ r1) "") eqn:E; [|reflexivity].
      apply String.eqb_eq in E. exfalso.
      destruct l1; [|discriminate]. destruct s; [|discriminate]. now apply Hsn.
    + rewrite starts_in_app. now destruct l2.
    + rewrite ends_in_app.
      destruct (((l1 ++ s ++ r1) ++ r2)%string) eqn:E.
      * exfalso. destruct (l1 ++ s ++ r1)%string; [|discriminate].
        simpl in E. now apply Hr2n.
      * rewrite <- E, ends_in_app. destruct r2; [now exfalso|exact Hr2e].
Qed.

(** X5 on the album: the wide picture between quotes of both kinds. *)
Lemma nested_quotes_witness :
  collect_one (dquote ++ "'" ++ "photos/wide.png" ++ "'" ++ dquote) []
    (mkState album [])
  = collect_one "photos/wide.png" [] (mkState album [])
  /\ collect_one ("'" ++ dquote ++ "photos/wide.png" ++ dquote ++ "'") []
       (mkState album [])
     = collect_path (dquote ++ "photos/wide.png" ++ dquote) [] (mkState album []).
Proof.
  pose proof (nested_quotes "photos/wide.png" dquote dquote "'" "'" []
                (mkState album []) eq_refl eq_refl eq_refl eq_refl eq_refl eq_refl)
    as [H1 H2].
  split; [exact H1|]. apply H2; discriminate.
Defined.

(** ** The names of the files that are written *)

Lemma string_of_uint_digits (d : Decimal.uint) :
  forallb PyStr.is_digit_ascii (list_ascii_of_string (NilEmpty.string_of_uint d))
  = true
  /\ PyStr.char_in "_" (NilEmpty.string_of_uint d) = false.
Proof. induction d; simpl; auto; destruct IHd as [-> ->]; auto. Qed.

Lemma string_of_uint_not_empty (d : Decimal.uint) :
  d <> Decimal.Nil -> NilEmpty.string_of_uint d <> "".
Proof. destruct d; simpl; congruence. Qed.

(** The decimal writing of a natural number: digits only, and at
    least one. *)
Lemma of_int_digits (n : Z) :
  0 <= n ->
  PyStr.isdigit (PyStr.of_int n) = true
  /\ PyStr.char_in "_" (PyStr.of_int n) = false
  /\ PyStr.of_int n <> "".
Proof.
  intros Hn. destruct n as [|p|p]; [repeat split; discriminate| |lia].
  unfold PyStr.of_int. cbn [Z.to_int NilZero.string_of_int].
  pose proof (@DecimalPos.Unsigned.to_uint_nonnil p) as Hnil.
  assert (E : NilZero.string_of_uint (Pos.to_uint p)
              = NilEmpty.string_of_uint (Pos.to_uint p))
    by (unfold NilZero.string_of_uint; now destruct (Pos.to_uint p)).
  rewrite E.
  destruct (string_of_uint_digits (Pos.to_uint p)) as [Hd Hu].
  pose proof (string_of_uint_not_empty _ Hnil) as Hne.
  split; [|split; assumption].
  unfold PyStr.isdigit.
  destruct (NilEmpty.string_of_uint (Pos.to_uint p)); [congruence|exact Hd].
Qed.

(** The last piece of a split is what follows the last separator. *)
Lemma last_split_app (sep : ascii) (a d : string) :
  PyStr.char_in sep d = false ->
  last (PyStr.split sep (a ++ String sep d)) "" = d.
Proof.
  intros Hd. rewrite split_app. cbn [PyStr.split]. rewrite Ascii.eqb_refl.
  rewrite (split_no_sep _ _ Hd). cbn [hd tl].
  match goal with
  | |- last (?l ++ ?x :: [d]) _ = _ =>
      change (x :: [d]) with ([x] ++ [d]); rewrite app_assoc
  end.
  apply last_last.
Qed.

Lemma append_not_self (a b : string) : b <> "" -> (a ++ b)%string <> a.
Proof.
  intros Hb E. apply (f_equal String.length) in E. rewrite append_length in E.
  destruct b; [congruence|]. simpl in E. lia.
Qed.

Lemma proper_extension_length (ext : string) :
  proper_extension ext -> (2 <= String.length ext)%nat.
Proof. intros (e & -> & He & _). destruct e; [congruence|]. simpl. lia. Qed.

Section Names.

Context {World Image : Type} {platform : Platform World Image}.

(** The shape of what the resolver returns for a name made of a stem
    and an extension. *)
Lemma resolver_shape (fuel : nat) (w : World) (directory : Path)
      (S ext : string) (p : Path) :
  S <> "" -> PyStr.char_in "/" S = false ->
  proper_extension ext -> PyStr.char_in "/" ext = false ->
  get_unique_filepath fuel w directory (S ++ ext) = Some p ->
  parent p = directory
  /\ suffix p = ext
  /\ (path_exists w (joinpath directory (S ++ ext)) = false ->
      name p = (S ++ ext)%string /\ stem p = S)
  /\ (path_exists w (joinpath directory (S ++ ext)) = true ->
      exists n, 1 <= n
                /\ name p = (S ++ "_" ++ PyStr.of_int n ++ ext)%string
                /\ stem p = (S ++ "_" ++ PyStr.of_int n)%string).
Proof.
  intros HS Hslash Hext Hslash' Hres.
  assert (Hsimple : simple_name (S ++ ext)).
  { split.
    - now rewrite char_in_append, Hslash, Hslash'.
    - pose proof (proper_extension_length _ Hext). rewrite append_length. lia. }
  pose proof (name_joinpath_simple directory _ Hsimple) as Hname.
  destruct (stem_suffix_of_name _ S ext Hname HS Hext) as [Hstem Hsuffix].
  split; [now apply (get_unique_filepath_parent fuel w directory (S ++ ext))|].
  unfold get_unique_filepath in Hres.
  destruct (path_exists w (joinpath directory (S ++ ext))); cbn [negb] in Hres.
  - apply unique_loop_numbered in Hres as (n & Hn & ->).
    pose proof (numbered_name_simple directory _ n Hsimple) as Hnum.
    unfold numbered_path. rewrite Hstem, Hsuffix in *.
    pose proof (name_joinpath_simple directory _ Hnum) as Hname'.
    assert (Hname'' : name (joinpath directory (S ++ "_" ++ PyStr.of_int n ++ ext))
                      = ((S ++ "_" ++ PyStr.of_int n) ++ ext)%string)
      by (rewrite Hname'; now rewrite !string_app_assoc).
    assert (HS' : (S ++ "_" ++ PyStr.of_int n)%string <> "")
      by (destruct S; [congruence|discriminate]).
    destruct (stem_suffix_of_name _ _ ext Hname'' HS' Hext) as [Hstem' Hsuffix'].
    split; [exact Hsuffix'|]. split; [discriminate|].
    intros _. exists n. repeat split; [exact Hn | exact Hname' | exact Hstem'].
  - inversion Hres; subst p. split; [exact Hsuffix|].
    split; [|discriminate]. intros _. now split.
Qed.

End Names.

(** X6.  The resolver changes neither the directory nor the extension:
    for a file name made of a non-empty stem and an extension, its
    answer lies in the directory it was given and carries that
    extension; its name is the requested one when that is free, and
    otherwise the stem, an underscore, a counter from 1 on written in
    decimal, and the extension. *)
Theorem resolver_keeps_extension
  {World Image : Type} {platform : Platform World Image}
  (fuel : nat) (w : World) (directory : Path) (S ext : string) (p : Path) :
  S <> "" -> PyStr.char_in "/" S = false ->
  proper_extension ext -> PyStr.char_in "/" ext = false ->
  get_unique_filepath fuel w directory (S ++ ext) = Some p ->
  parent p = directory
  /\ suffix p = ext
  /\ (path_exists w (joinpath directory (S ++ ext)) = false ->
      name p = (S ++ ext)%string /\ stem p = S)
  /\ (path_exists w (joinpath directory (S ++ ext)) = true ->
      exists n, 1 <= n
                /\ name p = (S ++ "_" ++ PyStr.of_int n ++ ext)%string
                /\ stem p = (S ++ "_" ++ PyStr.of_int n)%string
                /\ PyStr.isdigit (PyStr.of_int n) = true).
Proof.
  intros HS Hslash Hext Hslash' Hres.
  destruct (resolver_shape fuel w directory S ext p HS Hslash Hext Hslash' Hres)
    as (Hparent & Hsuffix & Hfree & Htaken).
  repeat split; try assumption; try (now apply Hfree).
  intros Hex. destruct (Htaken Hex) as (n & Hn & Hname & Hstem).
  exists n. repeat split; try assumption.
  apply of_int_digits. lia.
Qed.

(** X6 where [a.jpg] and [a_1.jpg] are taken. *)
Lemma resolver_keeps_extension_witness :
  exists p, get_unique_filepath 5 taken_world photos ("a" ++ ".jpg") = Some p
            /\ parent p = photos /\ suffix p = ".jpg".
Proof.
  eexists. split; [reflexivity|].
  refine (let H := resolver_keeps_extension 5 taken_world photos "a" ".jpg" _
                     _ eq_refl _ eq_refl eq_refl in
          conj (proj1 H) (proj1 (proj2 H))).
  - discriminate.
  - exists "jpg". repeat split; discriminate.
Defined.

(** X7.  The mark of a renamed file in the log is right: for a source
    file with a name, the message of a successful conversion carries
    the mark exactly when the plain output name, stem and extension,
    was taken in the output folder; the name that is logged is then
    the numbered one, and the plain one otherwise. *)
Theorem renamed_mark
  {World Image : Type} {platform : Platform World Image}
  (fuel : nat) (mode_type : string) (max_width : Z) (image_path : Path)
  (st st' : State World) :
  let cfg := settings_of mode_type in
  let output_dir := joinpath (parent image_path) (output_folder_name cfg) in
  let filename := (stem image_path ++ save_extension cfg)%string in
  name image_path <> "" ->
  PyStr.char_in "/" (name image_path) = false ->
  convert_one fuel cfg max_width image_path st = (st', Ok tt) ->
  exists (w1 : World) (saved_as : string) (renamed : bool),
    path_mkdir (world st) output_dir = (w1, Returns tt)
    /\ stdout st' = stdout st ++ [MsgSaved saved_as renamed]
    /\ renamed = path_exists w1 (joinpath output_dir filename)
    /\ (renamed = false -> saved_as = filename)
    /\ (renamed = true ->
        exists n, 1 <= n
                  /\ saved_as = (stem image_path ++ "_" ++ PyStr.of_int n
                                 ++ save_extension cfg)%string).
Proof.
  intros cfg output_dir filename Hname Hslash.
  rewrite convert_one_unfold. unfold convert_one_run.
  fold output_dir. fold filename.
  destruct (path_mkdir (world st) output_dir) as [w1 [[]|e]] eqn:Hmk;
    [|discriminate].
  destruct (image_open w1 image_path) as [img0|e]; [|discriminate].
  destruct (image_convert img0 "RGB") as [img1|e]; [|discriminate].
  destruct (resize_step img1 max_width) as [img2|e]; [|discriminate].
  destruct (get_unique_filepath fuel w1 output_dir filename)
    as [output_path|] eqn:Hres; [|discriminate].
  unfold after_save.
  destruct (save_call cfg w1 img2 output_path) as [w2 [[]|e]]; [|discriminate].
  intros H; inversion H; subst st'; clear H. cbn [world stdout].
  assert (Hext : proper_extension (save_extension cfg)
                 /\ PyStr.char_in "/" (save_extension cfg) = false).
  { unfold cfg. rewrite settings_of_cases.
    destruct (str_in mode_type ["webp"; "w"]); cbn [save_extension];
      (split; [eexists; split; [reflexivity|]; split; [discriminate|reflexivity]
              |reflexivity]). }
  destruct Hext as [Hext Hext'].
  destruct (resolver_shape fuel w1 output_dir (stem image_path)
              (save_extension cfg) output_path
              (stem_not_empty _ Hname) (stem_no_slash _ Hslash) Hext Hext' Hres)
    as (_ & _ & Hfree & Htaken).
  exists w1, (name output_path), (was_numbered output_path image_path).
  split; [reflexivity|]. split; [reflexivity|].
  fold filename in Hfree, Htaken.
  destruct (path_exists w1 (joinpath output_dir filename)).
  - destruct (Htaken eq_refl) as (n & Hn & Hnm & Hstem).
    assert (Hmark : was_numbered output_path image_path = true).
    { unfold was_numbered. rewrite Hstem. apply andb_true_iff. split.
      - apply negb_true_iff, String.eqb_neq, append_not_self. discriminate.
      - destruct (of_int_digits n) as (Hd & Hu & _); [lia|].
        change ("_" ++ PyStr.of_int n)%string with (String "_" (PyStr.of_int n)).
        now rewrite (last_split_app "_" _ _ Hu). }
    split; [exact Hmark|]. split; [rewrite Hmark; discriminate|].
    intros _. exists n. now split.
  - destruct (Hfree eq_refl) as [Hnm Hstem].
    assert (Hmark : was_numbered output_path image_path = false)
      by (unfold was_numbered; now rewrite Hstem, String.eqb_refl).
    split; [exact Hmark|]. split; [intros _; exact Hnm|].
    rewrite Hmark. discriminate.
Qed.

(** X7 on the album: the wide picture converted a second time. *)
Lemma renamed_mark_witness :
  let image_path := of_string "photos/wide.png" in
  let st1 := fst (convert_one 5 (settings_of "webp") 1200 image_path
                    (mkState album [])) in
  let st2 := fst (convert_one 5 (settings_of "webp") 1200 image_path st1) in
  stdout st2 = [MsgSaved "wide.webp" false; MsgSaved "wide_1.webp" true]
  /\ exists (w1 : Sim.World) (saved_as : string) (renamed : bool),
      path_mkdir (world st1) (of_string "photos/webp") = (w1, Returns tt)
      /\ stdout st2 = stdout st1 ++ [MsgSaved saved_as renamed]
      /\ renamed = path_exists w1 (of_string "photos/webp/wide.webp")
      /\ (renamed = false -> saved_as = "wide.webp")
      /\ (renamed = true ->
          exists n, 1 <= n
                    /\ saved_as = ("wide" ++ "_" ++ PyStr.of_int n ++ ".webp")%string).
Proof.
  intros image_path st1 st2. split; [reflexivity|].
  apply (renamed_mark 5 "webp" 1200 image_path st1 st2);
    [discriminate | reflexivity | reflexivity].
Defined.

(** ** What a conversion writes *)

(** X8.  The conversion of a file touches the file system twice at
    most: it makes the output folder, and it saves once, at a path
    that did not exist when it was chosen.  Whatever the outcome,
    exception and exhausted fuel included, the world it leaves is that
    of the [mkdir] call or that of this one [save] call: no existing
    file is saved over. *)
Theorem never_overwrites
  {World Image : Type} {platform : Platform World Image}
  (fuel : nat) (cfg : Settings) (max_width : Z) (image_path : Path)
  (st st' : State World) (o : outcome unit) :
  let output_dir := joinpath (parent image_path) (output_folder_name cfg) in
  convert_one fuel cfg max_width image_path st = (st', o) ->
  world st' = fst (path_mkdir (world st) output_dir)
  \/ exists (w1 : World) (img : Image) (output_path : Path),
       path_mkdir (world st) output_dir = (w1, Returns tt)
       /\ path_exists w1 output_path = false
       /\ world st' = fst (save_call cfg w1 img output_path).
Proof.
  intros output_dir. rewrite convert_one_unfold. unfold convert_one_run.
  fold output_dir.
  destruct (path_mkdir (world st) output_dir) as [w1 [[]|e]] eqn:Hmk;
    [|intros H; inversion H; now left].
  destruct (image_open w1 image_path) as [img0|e];
    [|intros H; inversion H; now left].
  destruct (image_convert img0 "RGB") as [img1|e];
    [|intros H; inversion H; now left].
  destruct (resize_step img1 max_width) as [img2|e];
    [|intros H; inversion H; now left].
  destruct (get_unique_filepath fuel w1 output_dir
              (stem image_path ++ save_extension cfg)) as [output_path|] eqn:Hres;
    [|intros H; inversion H; now left].
  intros H. right. exists w1, img2, output_path.
  split; [reflexivity|]. split.
  - unfold get_unique_filepath in Hres.
    destruct (path_exists w1 (joinpath output_dir _)) eqn:E; cbn [negb] in Hres.
    + now apply unique_loop_not_existing in Hres.
    + now inversion Hres; subst.
  - unfold after_save in H.
    destruct (save_call cfg w1 img2 output_path) as [w2 [[]|e]];
      inversion H; reflexivity.
Qed.

(** X8 on the album: the broken file leaves the folder, and nothing
    else. *)
Lemma never_overwrites_witness :
  world (fst (convert_one 0 (settings_of "jpg") 1200
                (of_string "photos/broken.png") (mkState album [])))
  = album_jpg.
Proof.
  destruct (never_overwrites 0 (settings_of "jpg") 1200
              (of_string "photos/broken.png") (mkState album [])
              (fst (convert_one 0 (settings_of "jpg") 1200
                      (of_string "photos/broken.png") (mkState album [])))
              (snd (convert_one 0 (settings_of "jpg") 1200
                      (of_string "photos/broken.png") (mkState album [])))
              (surjective_pairing _)) as [H|(w1 & img & p & _ & _ & _)].
  - exact H.
  - reflexivity.
Defined.

(** ** The height of a resized image, continued *)

(** The height computed at line 92 is never negative. *)
Lemma new_height_bounds (max_width width height : Z) :
  0 < max_width < width -> 0 < height -> width * height <= 2 ^ 50 ->
  exists nh,
    new_height max_width width height = Returns nh
    /\ 0 <= nh
    /\ spec_new_height max_width width height - 1 <= nh
       <= spec_new_height max_width width height.
Proof.
  intros Hw Hh Hsize.
  assert (Hwb : width <= 2 ^ 50).
  { apply Z.le_trans with (width * height); [|exact Hsize].
    rewrite <- (Z.mul_1_r width) at 1. apply Z.mul_le_mono_nonneg_l; lia. }
  assert (Hhb : 2 * height <= 2 ^ 50).
  { apply Z.le_trans with (width * height); [|exact Hsize].
    apply Z.mul_le_mono_nonneg_r; lia. }
  destruct max_width as [|a|a]; try lia.
  destruct width as [|b|b]; try lia.
  destruct height as [|h|h]; try lia.
  destruct (truediv_faithful a b) as (M1 & t1 & Hdiv & Ht1 & HM1 & Hratio);
    [lia| change (2 ^ 53) with 9007199254740992;
          change (2 ^ 50) with 1125899906842624 in Hwb; lia|].
  destruct (of_int_exact h) as (mz & tz & Hof & Htz & Htz0 & Hmz & Hmzb);
    [change (2 ^ 53) with 9007199254740992;
     change (2 ^ 50) with 1125899906842624 in Hhb; lia|].
  assert (Hdh : Zpos (digits2_pos h) <= 50).
  { pose proof (digits2_pos_bounds h) as [Hlo _].
    assert (Zpos (digits2_pos h) - 1 < 50); [|lia].
    apply pow2_lt_inv; [lia|].
    change (2 ^ 50) with 1125899906842624 in *. lia. }
  destruct (mul_faithful M1 mz t1 tz) as (M2 & E2 & k & Hmul & HM2 & Hk & HE2 & Hprod);
    try lia.
  unfold new_height, PyFloat.mul_int. rewrite Hdiv, Hof.
  fold PyFloat.prec PyFloat.emax. unfold PyFloat.prec, PyFloat.emax. rewrite Hmul.
  set (t2 := t1 + tz - k).
  assert (Ht2 : 0 <= t2) by (unfold t2; lia).
  assert (Hto : PyFloat.to_int (S754_finite false M2 E2)
                = Returns (Zpos M2 / 2 ^ t2)).
  { unfold PyFloat.to_int. replace E2 with (- t2) by (unfold t2; lia).
    destruct t2 as [|p|p]; try lia.
    - simpl. now rewrite Z.div_1_r.
    - reflexivity. }
  rewrite Hto. eexists. split; [reflexivity|].
  split.
  - apply Z.div_pos; [lia|]. apply Z.pow_pos_nonneg; lia.
  - unfold spec_new_height.
    assert (Hprod' : (Zpos M2 - 1) * 2 ^ k <= Zpos M1 * (Zpos h * 2 ^ tz)
                     < (Zpos M2 + 1) * 2 ^ k) by (rewrite <- Hmz; exact Hprod).
    assert (Hexp : 2 ^ t1 * 2 ^ tz = 2 ^ t2 * 2 ^ k)
      by (rewrite <- !Z.pow_add_r by lia; f_equal; unfold t2; lia).
    apply (scaled_floor_bounds (Zpos a) (Zpos b) (Zpos h) (Zpos M1) (Zpos M2)
             (2 ^ t1) (2 ^ tz) (2 ^ t2) (2 ^ k)); try assumption; try lia;
      apply Z.pow_pos_nonneg; lia.
Qed.

(** With [max_width = 0] the quotient is [0.0] and so is the height. *)
Lemma new_height_zero_width (width height : Z) :
  0 < width -> 0 < height < 2 ^ 53 -> new_height 0 width height = Returns 0.
Proof.
  intros Hw Hh.
  destruct width as [|b|b]; try lia. destruct height as [|h|h]; try lia.
  destruct (of_int_exact h) as (mz & tz & Hof & _); [lia|].
  unfold new_height, PyFloat.mul_int. cbn [PyFloat.truediv Z.eqb PyFloat.exact_of_int].
  cbn [SFdiv xorb]. rewrite Hof. reflexivity.
Qed.

(** X9.  An image wider than a positive [max_width], of at most
    [2^50] pixels, is never made taller: the height asked of the
    resizer is at least 0 and less than the original height, and the
    new size is at most as tall for its width as the original was, by
    less than two pixels; for an image so flat that
    [max_width * height < width], that height is 0.  With
    [max_width = 0] the size asked for is 0 by 0. *)
Theorem resized_height_bounds (max_width width height : Z) :
  (0 < max_width < width -> 0 < height -> width * height <= 2 ^ 50 ->
   exists nh,
     new_height max_width width height = Returns nh
     /\ 0 <= nh < height
     /\ nh * width <= max_width * height < (nh + 2) * width
     /\ (max_width * height < width -> nh = 0))
  /\ (0 < width -> 0 < height < 2 ^ 53 -> new_height 0 width height = Returns 0).
Proof.
  split; [|apply new_height_zero_width].
  intros Hw Hh Hsize.
  destruct (new_height_bounds max_width width height Hw Hh Hsize)
    as (nh & Hnh & Hpos & Hnear).
  exists nh. split; [exact Hnh|].
  unfold spec_new_height in Hnear.
  set (F := max_width * height / width) in *.
  assert (HF : width * F <= max_width * height < width * F + width).
  { pose proof (Z.div_mod (max_width * height) width ltac:(lia)) as Hdm.
    pose proof (Z.mod_pos_bound (max_width * height) width ltac:(lia)) as Hmod.
    fold F in Hdm. lia. }
  assert (Hlow : nh * width <= width * F)
    by (rewrite (Z.mul_comm width F); apply Z.mul_le_mono_nonneg_r; lia).
  assert (Hhigh : width * F + width <= (nh + 2) * width).
  { replace (width * F + width) with ((F + 1) * width) by ring.
    apply Z.mul_le_mono_nonneg_r; lia. }
  assert (Hprop : nh * width <= max_width * height < (nh + 2) * width) by lia.
  assert (Hsmaller : max_width * height < width * height)
    by (apply Z.mul_lt_mono_pos_r; lia).
  assert (Hlt : nh < height).
  { destruct (Z.lt_ge_cases nh height) as [H|H]; [exact H|].
    assert (height * width <= nh * width)
      by (apply Z.mul_le_mono_nonneg_r; lia).
    lia. }
  split; [lia|]. split; [exact Hprop|].
  intros Hflat.
  destruct (Z.eq_dec nh 0) as [H0|H0]; [exact H0|].
  assert (1 * width <= nh * width) by (apply Z.mul_le_mono_nonneg_r; lia).
  lia.
Qed.

(** X9 on a strip of 5000 by 2 pixels with [max_width = 1200]. *)
Lemma resized_height_bounds_witness :
  new_height 1200 5000 2 = Returns 0 /\ new_height 0 5000 2 = Returns 0.
Proof.
  destruct (resized_height_bounds 1200 5000 2) as [Hpos Hzero].
  split.
  - destruct Hpos as (nh & Hnh & _ & _ & Hflat); [lia | lia | vm_compute; discriminate|].
    rewrite Hnh. f_equal. apply Hflat. lia.
  - apply (proj2 (resized_height_bounds 0 5000 2)); [lia|].
    split; [lia|reflexivity].
Defined.

(** ** The interactive session *)

Lemma lex_raises (s : string) :
  forall state token quoted acc e,
    Shlex.lex s state token quoted acc = Raises e -> In e Shlex.value_errors.
Proof.
  induction s as [|c s IH]; intros state token quoted acc e.
  - destruct state; cbn [Shlex.lex]; intros H; inversion H; subst;
      unfold Shlex.value_errors; simpl; auto.
  - destruct state as [| |q|[q|]]; cbn [Shlex.lex];
      repeat match goal with
             | |- context [if ?b then _ else _] => destruct b
             end; apply IH.
Qed.

#[global] Instance sim_console : Console := {|
  shlex_split := Shlex.split;
  is_value_error := fun e => str_in e Shlex.value_errors;
  shlex_split_raises :=
    fun s e H => proj2 (str_in_In e Shlex.value_errors)
                   (lex_raises s Shlex.Blank "" false [] e H)
|}.






Section SessionFacts.

Context {World Image : Type} {platform : Platform World Image}
        {console : Console}.

Variables (fuel : nat) (args : Args).



End SessionFacts.



(** X12.  A line that the parser rejects, for a quote that is not
    closed or a backslash at its end, costs one message: nothing is
    listed, opened or written for it, and the session goes on with the
    next line as if after the prompt and that message. *)
Theorem rejected_lines_are_skipped
  {World Image : Type} {platform : Platform World Image} {console : Console}
  (fuel : nat) (args : Args) (lines : list string) (rest : list Event)
  (w : World) (out : list Shown) :
  Forall (fun line =>
            quits (PyStr.strip py_whitespace line) = false
            /\ exists e, shlex_split (PyStr.strip py_whitespace line) = Raises e)
         lines ->
  interactive fuel args (map Line lines ++ rest) w out
  = interactive fuel args rest w
      (out ++ flat_map (fun _ => [MsgPrompt; MsgParseFailed]) lines).
Proof.
  intros H. revert w out.
  induction H as [|line lines (Hq & e & Hsplit) _ IH]; intros w out.
  - simpl. now rewrite app_nil_r.
  - cbn [map app interactive flat_map]. rewrite Hq, Hsplit.
    rewrite (shlex_split_raises _ _ Hsplit), IH.
    f_equal. now rewrite <- !app_assoc.
Qed.

(** X12 on the album: an open quote, a trailing backslash, then [q]. *)
Lemma rejected_lines_are_skipped_witness :
  interactive 0 default_args
    (map Line ["'photos"; "photos\"] ++ [Line "q"]) album []
  = (mkSession album
       [MsgPrompt; MsgParseFailed; MsgPrompt; MsgParseFailed; MsgPrompt; MsgBye]
       [],
     Ok tt).
Proof.
  rewrite (rejected_lines_are_skipped 0 default_args ["'photos"; "photos\"]
             [Line "q"] album []).
  - reflexivity.
  - repeat constructor; eexists; reflexivity.
Defined.

(** ** Termination of a run *)

Section Termination.

Context {World Image : Type} {platform : Platform World Image}.


Context {console : Console}.


End Termination.


(** ** When a directory cannot be listed *)

Section Listing.

Context {World Image : Type} {platform : Platform World Image}.


End Listing.



